(** * DocHelper AI proxy server: [server.js] in Rocq

    A shallow embedding of [src/project/server.js]: the shared Groq client
    handle and its initialisation counter, [initializeGroq],
    [initializeGroqWithRetry], and the three JSON endpoints [/health],
    [/api/suggest] and [/api/format].

    Every handler is run to completion on an explicit process state; the
    interleaving of handlers at their [await] points is not part of this
    sequential model.  The retry loop, the only code that writes the shared
    variables, is also given step by step between its awaits, in
    [Module Interleaved].  What the process reads from outside (the
    environment, the SDK constructor, the provider's answers, the clock,
    and the parts of the JavaScript engine that depend on floating point
    or on the wording of built-in errors) is a parameter, [World].

    Part I holds the definitions, Part II the lemmas, Part III the claims,
    Part IV further properties of the same code. *)

From Stdlib Require Import String Ascii ZArith List Bool Lia QArith DecimalString.
From Equations Require Import Equations.
Import ListNotations.

Local Open Scope string_scope.
Local Open Scope Z_scope.

(* ================================================================== *)
(** * Part I.  The program *)
(* ================================================================== *)

(* ------------------------------------------------------------------ *)
(** ** JavaScript values, as far as the server handles them *)
(* ------------------------------------------------------------------ *)

Module Js.

(** A value as [JSON.parse] builds it, plus [undefined].  A number is an
    integer-valued double in the range that prints in plain decimal (an
    integer of magnitude at most 2^53 - 1; other numbers, fractions among
    them, have no value here); a string is its sequence of code units; an
    object is the list of its own properties in insertion order, with
    distinct keys. *)
#[local] Unset Elimination Schemes.
Inductive JsVal : Type :=
| JUndefined
| JNull
| JBool (b : bool)
| JNum (n : Z)
| JStr (s : string)
| JArr (elems : list JsVal)
| JObj (props : list (string * JsVal)).
#[local] Set Elimination Schemes.

(** What the handlers read of a thrown value: its [message] property,
    [None] when the value has none (as after [throw {}]).  This covers the
    values on which reading [message] gives a string, [undefined] or
    [null], every [Error] among them; a thrown [null] or [undefined], and
    a message that is neither a string nor nullish, have no value here. *)
Record JsError : Type := mkError { message : option string }.

(** [new Error(msg)]. *)
Definition Error (msg : string) : JsError := mkError (Some msg).

(** A completion record: a normal value or a thrown one. *)
Inductive Result (A : Type) : Type :=
| Normal (a : A)
| Throw (e : JsError).
Arguments Normal {A} a.
Arguments Throw {A} e.

(** The built-in [TypeError]s the handlers can provoke. *)
Inductive TypeErrorKind : Type :=
| CannotDestructure      (* const { text } = undefined *)
| CannotReadProperty     (* undefined.length *)
| CannotConvertToPrimitive.

(** Engine-defined behaviour that is not modelled further: the wording of
    built-in errors, and the comparison [Number(s) > n] of a string's
    numeric value (StringToNumber rounds to a double) with an integer. *)
Record Engine : Type := {
  TypeError_message : TypeErrorKind -> string;
  StringToNumber_gt : string -> Z -> bool
}.

Definition TypeError (eng : Engine) (k : TypeErrorKind) : JsError :=
  Error (TypeError_message eng k).

(** ToBoolean. *)
Definition truthy (v : JsVal) : bool :=
  match v with
  | JUndefined | JNull => false
  | JBool b => b
  | JNum n => negb (n =? 0)
  | JStr s => negb (String.eqb s "")
  | JArr _ | JObj _ => true
  end.

(** [a || b]: the left operand when it is truthy, the right one otherwise. *)
Definition js_or (a b : JsVal) : JsVal := if truthy a then a else b.

(** An own property of an object literal. *)
Fixpoint own (k : string) (props : list (string * JsVal)) : option JsVal :=
  match props with
  | [] => None
  | (k', v) :: rest => if String.eqb k k' then Some v else own k rest
  end.

Definition has_own (k : string) (props : list (string * JsVal)) : bool :=
  match own k props with Some _ => true | None => false end.

(** [const { text } = body]: a nullish body throws; only an object can
    carry a property of that name. *)
Definition destructure_text (eng : Engine) (body : JsVal) : Result JsVal :=
  match body with
  | JUndefined | JNull => Throw (TypeError eng CannotDestructure)
  | JObj props => Normal (match own "text" props with Some v => v | None => JUndefined end)
  | _ => Normal JUndefined
  end.

(** [v.length]: the number of code units of a string, the number of
    elements of an array, the own property of an object; booleans and
    numbers have none. *)
Definition get_length (eng : Engine) (v : JsVal) : Result JsVal :=
  match v with
  | JUndefined | JNull => Throw (TypeError eng CannotReadProperty)
  | JStr s => Normal (JNum (Z.of_nat (String.length s)))
  | JArr l => Normal (JNum (Z.of_nat (List.length l)))
  | JObj props => Normal (match own "length" props with Some x => x | None => JUndefined end)
  | JBool _ | JNum _ => Normal JUndefined
  end.

(** Number::toString on the modelled range: the decimal digits of an
    integer of magnitude at most 2^53 - 1.  (Beyond it the engine prints
    the shortest digits that give the double back, and the exponent form
    from 10^21 on.) *)
Definition NumberToString (n : Z) : string := NilZero.string_of_int (Z.to_int n).

Definition comma : string := ",".

(** ToString.  An array joins the strings of its elements with commas
    (nullish elements give the empty string); a plain object is
    [[object Object]] unless an own [toString] property shadows the
    inherited method: parsed JSON holds no function, so the conversion then
    finds nothing callable that returns a primitive. *)
Fixpoint ToString (eng : Engine) (v : JsVal) : Result string :=
  match v with
  | JUndefined => Normal "undefined"
  | JNull => Normal "null"
  | JBool true => Normal "true"
  | JBool false => Normal "false"
  | JNum n => Normal (NumberToString n)
  | JStr s => Normal s
  | JArr l =>
      let element (x : JsVal) : Result string :=
        match x with
        | JUndefined | JNull => Normal ""
        | _ => ToString eng x
        end in
      (fix join (l : list JsVal) : Result string :=
         match l with
         | [] => Normal ""
         | [x] => element x
         | x :: rest =>
             match element x with
             | Throw e => Throw e
             | Normal sx =>
                 match join rest with
                 | Throw e => Throw e
                 | Normal sr => Normal (sx ++ comma ++ sr)
                 end
             end
         end) l
  | JObj props =>
      if has_own "toString" props
      then Throw (TypeError eng CannotConvertToPrimitive)
      else Normal "[object Object]"
  end.

(** [v > n] for an integer [n]: [v] is converted to a primitive with hint
    number (arrays and objects end up as their string), then to a number;
    [undefined] is NaN, which compares false. *)
Definition GreaterThan (eng : Engine) (v : JsVal) (n : Z) : Result bool :=
  match v with
  | JUndefined => Normal false
  | JNull => Normal (0 >? n)
  | JBool b => Normal ((if b then 1 else 0) >? n)
  | JNum x => Normal (x >? n)
  | JStr s => Normal (StringToNumber_gt eng s n)
  | JArr _ | JObj _ =>
      match ToString eng v with
      | Throw e => Throw e
      | Normal s => Normal (StringToNumber_gt eng s n)
      end
  end.

(** [s.includes(sub)]: [sub] occurs in [s], compared code unit by code unit. *)
Fixpoint includes (s sub : string) : bool :=
  if String.prefix sub s then true
  else match s with
       | EmptyString => false
       | String _ s' => includes s' sub
       end.

(** [m?.includes(sub)]: [undefined] when the receiver is. *)
Definition optional_includes (m : option string) (sub : string) : JsVal :=
  match m with
  | None => JUndefined
  | Some s => JBool (includes s sub)
  end.

Definition of_optional_string (m : option string) : JsVal :=
  match m with
  | None => JUndefined
  | Some s => JStr s
  end.

(** The value a client reads back from [JSON.stringify v]: properties
    whose value is [undefined] are left out, [undefined] array elements
    become [null]; [None] when nothing is written at all. *)
Fixpoint JSON_roundtrip (v : JsVal) : option JsVal :=
  match v with
  | JUndefined => None
  | JArr l =>
      Some (JArr (List.map (fun x => match JSON_roundtrip x with
                                     | Some y => y
                                     | None => JNull
                                     end) l))
  | JObj props =>
      Some (JObj ((fix fields (ps : list (string * JsVal)) : list (string * JsVal) :=
                     match ps with
                     | [] => []
                     | (k, x) :: rest =>
                         match JSON_roundtrip x with
                         | Some y => (k, y) :: fields rest
                         | None => fields rest
                         end
                     end) props))
  | _ => Some v
  end.

End Js.
Import Js.

(* ------------------------------------------------------------------ *)
(** ** The provider SDK, seen from the server *)
(* ------------------------------------------------------------------ *)

(** The options object given to [new Groq(...)]. *)
Record GroqOptions : Type := {
  apiKey : string;
  timeout : Z                      (* milliseconds *)
}.

(** A constructed client: it keeps the options it was built with. *)
Record Groq : Type := { options : GroqOptions }.

Inductive Role : Type := system | user.

Record ChatMessage : Type := {
  role : Role;
  content : string
}.

(** The argument of [groq.chat.completions.create]. *)
Record ChatRequest : Type := {
  messages : list ChatMessage;
  model : string;
  temperature : Q;
  max_tokens : Z;
  top_p : Z;
  stream : bool
}.

(** A completion, as far as [completion.choices[0]?.message?.content]
    reads it: a list of choices, each with a message that may be missing,
    whose content may be missing ([null] or [undefined]). *)
Record Message : Type := { message_content : option string }.
Record Choice : Type := { choice_message : option Message }.
Record ChatCompletion : Type := { choices : list Choice }.

(** An awaited provider promise: resolved or rejected. *)
Inductive Settled : Type :=
| Resolved (completion : ChatCompletion)
| Rejected (error : JsError).

(* ------------------------------------------------------------------ *)
(** ** Process state, outside world, effects *)
(* ------------------------------------------------------------------ *)

(** What the process does that can be observed from outside, besides
    its HTTP responses. *)
Inductive Effect : Type :=
| ConsoleLog (line : string)
| ConsoleError (label : string) (detail : option string)
| SetTimeout (ms : Z)                       (* an awaited timer *)
| ProviderRequest (client : Groq) (request : ChatRequest).

(** The two module-level variables of [server.js], and the effects so far
    (oldest first). *)
Record State : Type := {
  groq : option Groq;                       (* [let groq;] *)
  initializationAttempts : Z;
  trace : list Effect
}.

(** What the process reads from outside while it serves one call. *)
Record World : Type := {
  GROQ_API_KEY : option string;             (* process.env.GROQ_API_KEY *)
  Groq_constructor_throws : GroqOptions -> option JsError;
  chat_completions_create : Groq -> ChatRequest -> Settled;
  Date_toISOString : string;                (* new Date().toISOString() *)
  engine : Engine
}.

Definition MAX_INITIALIZATION_ATTEMPTS : Z := 3.

(** The state when the module starts to load. *)
Definition initial_state : State :=
  {| groq := None; initializationAttempts := 0; trace := [] |}.

(** Computations: state passing with exceptions. *)

Definition M (A : Type) : Type := State -> State * Result A.

Definition ret {A} (a : A) : M A := fun s => (s, Normal a).

Definition throw {A} (e : JsError) : M A := fun s => (s, Throw e).

Definition bind {A B} (c : M A) (k : A -> M B) : M B :=
  fun s =>
    match c s with
    | (s1, Normal a) => k a s1
    | (s1, Throw e) => (s1, Throw e)
    end.

(** [try { body } catch (error) { handler }]. *)
Definition try_catch {A} (body : M A) (handler : JsError -> M A) : M A :=
  fun s =>
    match body s with
    | (s1, Normal a) => (s1, Normal a)
    | (s1, Throw e) => handler e s1
    end.

Definition lift {A} (r : Result A) : M A := fun s => (s, r).

Definition emit (e : Effect) : M unit :=
  fun s => ({| groq := groq s;
               initializationAttempts := initializationAttempts s;
               trace := trace s ++ [e] |}, Normal tt).

Definition read_groq : M (option Groq) := fun s => (s, Normal (groq s)).

Definition write_groq (c : Groq) : M unit :=
  fun s => ({| groq := Some c;
               initializationAttempts := initializationAttempts s;
               trace := trace s |}, Normal tt).

Definition read_attempts : M Z := fun s => (s, Normal (initializationAttempts s)).

(** [initializationAttempts++]. *)
Definition increment_attempts : M unit :=
  fun s => ({| groq := groq s;
               initializationAttempts := initializationAttempts s + 1;
               trace := trace s |}, Normal tt).

Declare Scope js_scope.
Delimit Scope js_scope with js.
Notation "x <- c1 ;; c2" := (bind c1 (fun x => c2))
  (at level 61, c1 at next level, right associativity) : js_scope.
Notation "c1 ;; c2" := (bind c1 (fun _ => c2))
  (at level 61, right associativity) : js_scope.
Local Open Scope js_scope.

(* ------------------------------------------------------------------ *)
(** ** Client lifecycle *)
(* ------------------------------------------------------------------ *)

(** [process.env.GROQ_API_KEY], when it is a non-empty string. *)
Definition configured_key (w : World) : option string :=
  match GROQ_API_KEY w with
  | Some k => if String.eqb k "" then None else Some k
  | None => None
  end.

(** [new Groq({ apiKey, timeout: 30000 })]. *)
Definition new_Groq (w : World) (opts : GroqOptions) : M Groq :=
  match Groq_constructor_throws w opts with
  | Some e => throw e
  | None => ret {| options := opts |}
  end.

Definition initializeGroq (w : World) : M bool :=
  try_catch
    (match configured_key w with
     | None => throw (Error "GROQ_API_KEY is not set in environment variables")
     | Some key =>
         client <- new_Groq w {| apiKey := key; timeout := 30000 |} ;;
         write_groq client ;;
         emit (ConsoleLog "Groq AI service initialized successfully") ;;
         ret true
     end)
    (fun error =>
       emit (ConsoleError "Failed to initialize Groq:" (message error)) ;;
       ret false).

(** The guard of the [while] loop. *)
Definition may_attempt (s : State) : bool :=
  (initializationAttempts s <? MAX_INITIALIZATION_ATTEMPTS)
  && match groq s with None => true | Some _ => false end.

(** [await new Promise(resolve => setTimeout(resolve, ms))]. *)
Definition sleep (ms : Z) : M unit := emit (SetTimeout ms).

(** What follows a failed [initializeGroq()] inside the loop. *)
Definition back_off : M unit :=
  increment_attempts ;;
  n <- read_attempts ;;
  sleep (1000 * n).

(** A value together with the fact that it is the value of the term
    inspected: the loop remembers what each call returned. *)
Definition inspect {A : Type} (a : A) : {b : A | a = b} := exist _ a eq_refl.

#[local] Obligation Tactic := idtac.

(** The loop.  Each turn uses up one of the attempts left, which is what
    makes it end. *)
Equations? initializeGroqWithRetry (w : World) (s : State) : State * Result unit
  by wf (Z.to_nat (MAX_INITIALIZATION_ATTEMPTS - initializationAttempts s)) lt :=
  initializeGroqWithRetry w s with inspect (may_attempt s) := {
    | exist _ false _ => (s, Normal tt);
    | exist _ true guard with inspect (initializeGroq w s) := {
        | exist _ (s1, Throw e) _ => (s1, Throw e);
        | exist _ (s1, Normal true) _ => (s1, Normal tt);
        | exist _ (s1, Normal false) init with inspect (back_off s1) := {
            | exist _ (s2, Throw e) _ => (s2, Throw e);
            | exist _ (s2, Normal _) slept => initializeGroqWithRetry w s2 } } }.
Proof.
  assert (Hinit : initializationAttempts s1 = initializationAttempts s).
  { revert init.
    unfold initializeGroq, try_catch, new_Groq, bind, throw, ret, emit, write_groq.
    destruct (configured_key w);
      [destruct (Groq_constructor_throws w _)|];
      intros Heq; inversion Heq; reflexivity. }
  assert (Hback : initializationAttempts s2 = initializationAttempts s1 + 1).
  { revert slept. unfold back_off, bind, increment_attempts, read_attempts, sleep, emit.
    intros Heq. inversion Heq. reflexivity. }
  unfold may_attempt in guard.
  apply andb_true_iff in guard. destruct guard as [guard _].
  apply Z.ltb_lt in guard.
  unfold MAX_INITIALIZATION_ATTEMPTS in *. lia.
Qed.

(* ------------------------------------------------------------------ *)
(** ** HTTP responses *)
(* ------------------------------------------------------------------ *)

(** What a handler sends: the status code and the value given to
    [res.json]. *)
Record Response : Type := {
  status : Z;
  json : JsVal
}.

(** [res.json(value)]: the status code is Express's default, 200. *)
Definition res_json (value : JsVal) : Response :=
  {| status := 200; json := value |}.

(** [res.status(code).json(value)]. *)
Definition res_status_json (code : Z) (value : JsVal) : Response :=
  {| status := code; json := value |}.

(** The body as the client parses it. *)
Definition sent (r : Response) : option JsVal := JSON_roundtrip (json r).

(* ------------------------------------------------------------------ *)
(** ** GET /health *)
(* ------------------------------------------------------------------ *)

Definition get_health (w : World) : M Response :=
  g <- read_groq ;;
  attempts <- read_attempts ;;
  let status :=
    JObj [ ("server", JStr "healthy");
           ("aiService", JStr (match g with
                               | Some _ => "available"
                               | None => "unavailable"
                               end));
           ("aiError", match g with
                       | None => JStr ("AI service not initialized after "
                                       ++ NumberToString attempts ++ " attempts")
                       | Some _ => JNull
                       end);
           ("timestamp", JStr (Date_toISOString w)) ] in
  ret (res_json status).

(* ------------------------------------------------------------------ *)
(** ** The provider call *)
(* ------------------------------------------------------------------ *)

(** The line feed of the template literals. *)
Definition LF : string := String (ascii_of_nat 10) EmptyString.

(** [groq.chat.completions.create(request)], awaited: reading [groq.chat]
    on an absent handle is a [TypeError]. *)
Definition create_completion (w : World) (request : ChatRequest) : M ChatCompletion :=
  g <- read_groq ;;
  match g with
  | None => throw (TypeError (engine w) CannotReadProperty)
  | Some client =>
      emit (ProviderRequest client request) ;;
      match chat_completions_create w client request with
      | Resolved completion => ret completion
      | Rejected error => throw error
      end
  end.

(** [completion.choices[0]?.message?.content]. *)
Definition first_choice_content (completion : ChatCompletion) : JsVal :=
  match choices completion with
  | [] => JUndefined
  | choice :: _ =>
      match choice_message choice with
      | None => JUndefined
      | Some m => of_optional_string (message_content m)
      end
  end.

(** The early exit shared by the two POST handlers is written out in each
    of them, as in the source. *)
Definition unavailable_response : Response :=
  res_status_json 503
    (JObj [ ("error", JStr "AI service unavailable");
            ("message", JStr "The AI service is not properly initialized. Please try again later.") ]).

(* ------------------------------------------------------------------ *)
(** ** POST /api/suggest *)
(* ------------------------------------------------------------------ *)

Definition suggest_prompt (text : string) : string :=
  "You are DocHelper AI, a professional document assistant. Please help improve the following text while maintaining its core meaning and professional tone. Focus on clarity, conciseness, and proper formatting. If the text appears to be a specific document type (e.g., resume, contract, letter), apply appropriate formatting and style conventions for that type:"
  ++ LF ++ LF ++ text.

Definition suggest_request (prompt : string) : ChatRequest :=
  {| messages :=
       [ {| role := system;
            content := "You are DocHelper AI, a professional document assistant focused on improving text while maintaining meaning and tone. You excel at identifying document types and applying appropriate formatting and style conventions." |};
         {| role := user; content := prompt |} ];
     model := "mixtral-8x7b-32768";
     temperature := 7 # 10;
     max_tokens := 32768;
     top_p := 1;
     stream := false |}.

(** The [try] block of the handler. *)
Definition suggest_try (w : World) (body : JsVal) : M Response :=
  text <- lift (destructure_text (engine w) body) ;;
  if negb (truthy text) then
    ret (res_status_json 400
           (JObj [ ("error", JStr "Missing text");
                   ("message", JStr "Please provide text to get suggestions") ]))
  else
    len <- lift (get_length (engine w) text) ;;
    too_long <- lift (GreaterThan (engine w) len 32000) ;;
    if too_long then
      ret (res_status_json 400
             (JObj [ ("error", JStr "Text too long");
                     ("message", JStr "The provided text exceeds the maximum length limit") ]))
    else
      interpolated <- lift (ToString (engine w) text) ;;
      let prompt := suggest_prompt interpolated in
      completion <- create_completion w (suggest_request prompt) ;;
      let suggestion := first_choice_content completion in
      if negb (truthy suggestion) then
        throw (Error "No suggestion generated")
      else
        ret (res_json (JObj [ ("suggestion", suggestion) ])).

(** The [catch] block of the handler. *)
Definition suggest_catch (error : JsError) : M Response :=
  emit (ConsoleError "Error generating suggestion:" (message error)) ;;
  let isRetryableError :=
    js_or (js_or (optional_includes (message error) "timeout")
                 (optional_includes (message error) "rate limit"))
          (optional_includes (message error) "connection") in
  ret (res_status_json (if truthy isRetryableError then 503 else 500)
         (JObj [ ("error", JStr "AI service error");
                 ("message", js_or (of_optional_string (message error))
                                   (JStr "Failed to generate suggestion"));
                 ("retryable", isRetryableError) ])).

Definition post_api_suggest (w : World) (body : JsVal) : M Response :=
  g <- read_groq ;;
  early <- match g with
           | Some _ => ret None
           | None =>
               (* Attempt to reinitialize if not available *)
               initializeGroqWithRetry w ;;
               g' <- read_groq ;;
               match g' with
               | None => ret (Some unavailable_response)
               | Some _ => ret None
               end
           end ;;
  match early with
  | Some response => ret response
  | None => try_catch (suggest_try w body) suggest_catch
  end.

(* ------------------------------------------------------------------ *)
(** ** POST /api/format *)
(* ------------------------------------------------------------------ *)

Definition format_prompt (text : string) : string :=
  "You are DocHelper AI, a professional document formatter. Please format the following text to improve its structure and readability. Apply the following formatting guidelines:"
  ++ LF ++ LF
  ++ "1. Use appropriate headings and subheadings" ++ LF
  ++ "2. Organize content into logical paragraphs" ++ LF
  ++ "3. Use bullet points or numbered lists where appropriate" ++ LF
  ++ "4. Add proper spacing between sections" ++ LF
  ++ "5. Maintain consistent formatting throughout" ++ LF
  ++ "6. If the text is a specific document type (e.g., resume, contract), apply standard formatting conventions"
  ++ LF ++ LF
  ++ "Text to format:" ++ LF ++ LF ++ text.

Definition format_request (prompt : string) : ChatRequest :=
  {| messages :=
       [ {| role := system;
            content := "You are DocHelper AI, a professional document formatter focused on improving document structure, readability, and applying appropriate formatting conventions based on document type." |};
         {| role := user; content := prompt |} ];
     model := "mixtral-8x7b-32768";
     temperature := 5 # 10;
     max_tokens := 32768;
     top_p := 1;
     stream := false |}.

Definition format_try (w : World) (body : JsVal) : M Response :=
  text <- lift (destructure_text (engine w) body) ;;
  if negb (truthy text) then
    ret (res_status_json 400
           (JObj [ ("error", JStr "Missing text");
                   ("message", JStr "Please provide text to format") ]))
  else
    len <- lift (get_length (engine w) text) ;;
    too_long <- lift (GreaterThan (engine w) len 32000) ;;
    if too_long then
      ret (res_status_json 400
             (JObj [ ("error", JStr "Text too long");
                     ("message", JStr "The provided text exceeds the maximum length limit") ]))
    else
      interpolated <- lift (ToString (engine w) text) ;;
      let prompt := format_prompt interpolated in
      completion <- create_completion w (format_request prompt) ;;
      let formattedText := first_choice_content completion in
      if negb (truthy formattedText) then
        throw (Error "No formatted text generated")
      else
        ret (res_json (JObj [ ("formattedText", formattedText) ])).

Definition format_catch (error : JsError) : M Response :=
  emit (ConsoleError "Error formatting text:" (message error)) ;;
  let isRetryableError :=
    js_or (js_or (optional_includes (message error) "timeout")
                 (optional_includes (message error) "rate limit"))
          (optional_includes (message error) "connection") in
  ret (res_status_json (if truthy isRetryableError then 503 else 500)
         (JObj [ ("error", JStr "AI service error");
                 ("message", js_or (of_optional_string (message error))
                                   (JStr "Failed to format text"));
                 ("retryable", isRetryableError) ])).

Definition post_api_format (w : World) (body : JsVal) : M Response :=
  g <- read_groq ;;
  early <- match g with
           | Some _ => ret None
           | None =>
               initializeGroqWithRetry w ;;
               g' <- read_groq ;;
               match g' with
               | None => ret (Some unavailable_response)
               | Some _ => ret None
               end
           end ;;
  match early with
  | Some response => ret response
  | None => try_catch (format_try w body) format_catch
  end.

(* ------------------------------------------------------------------ *)
(** ** The process as a whole *)
(* ------------------------------------------------------------------ *)

(** Module load, [initializeGroqWithRetry();], when the call runs to its
    end alone and in one world.  (The promise is dropped: in the running
    server requests can arrive before the call has ended; see
    [Module Interleaved].) *)
Definition boot (w : World) : State := fst (initializeGroqWithRetry w initial_state).

(** The requests the three routes serve, once the middleware has let them
    through; [body] is [req.body] as [express.json()] leaves it: the
    parsed JSON document, an object or an array (the parser is strict and
    answers any other document itself, as it does a body over its limit),
    or an empty object when there was none to parse. *)
Inductive Request : Type :=
| GET_health
| POST_api_suggest (body : JsVal)
| POST_api_format (body : JsVal).

Definition route (w : World) (r : Request) : M Response :=
  match r with
  | GET_health => get_health w
  | POST_api_suggest body => post_api_suggest w body
  | POST_api_format body => post_api_format w body
  end.

(** Requests served one after the other, each in the world of its time;
    the outcome of each is kept, oldest first. *)
Fixpoint serve_all (reqs : list (World * Request)) (s : State)
  : State * list (Result Response) :=
  match reqs with
  | [] => (s, [])
  | (w, r) :: rest =>
      let (s1, outcome) := route w r s in
      let (s2, outcomes) := serve_all rest s1 in
      (s2, outcome :: outcomes)
  end.

(* ------------------------------------------------------------------ *)
(** ** The retry loop between its awaits *)
(* ------------------------------------------------------------------ *)

Module Interleaved.

(** Where a call of [initializeGroqWithRetry] is suspended. *)
Inductive Pending : Type :=
| AwaitingInit (ok : bool)     (* at [await initializeGroq()], which returned [ok] *)
| AwaitingTimer.               (* at the awaited timer *)

(** From the loop guard to the first await, or to the end of the loop. *)
Definition enter (w : World) (s : State) : State * option Pending :=
  if may_attempt s then
    match initializeGroq w s with
    | (s1, Normal ok) => (s1, Some (AwaitingInit ok))
    | (s1, Throw _) => (s1, None)
    end
  else (s, None).

(** From one await to the next, or to the end of the loop. *)
Definition resume (w : World) (p : Pending) (s : State) : State * option Pending :=
  match p with
  | AwaitingInit true => (s, None)
  | AwaitingInit false => (fst (back_off s), Some AwaitingTimer)
  | AwaitingTimer => enter w s
  end.

(** The process between two awaits: its state, and the calls of the loop
    that are suspended. *)
Definition Config : Type := (State * list Pending)%type.

Definition suspend (p : option Pending) (ps : list Pending) : list Pending :=
  match p with
  | Some q => q :: ps
  | None => ps
  end.

(** Either a new call of the loop starts (at module load, or from a POST
    handler that found no handle), or a suspended call goes on; each step
    happens in the world of its time. *)
Inductive step : Config -> Config -> Prop :=
| step_call (w : World) (s : State) (ps : list Pending) :
    step (s, ps) (fst (enter w s), suspend (snd (enter w s)) ps)
| step_resume (w : World) (s : State) (before after : list Pending) (p : Pending) :
    step (s, (before ++ p :: after)%list)
         (fst (resume w p s), (before ++ suspend (snd (resume w p s)) after)%list).

Inductive steps : Config -> Config -> Prop :=
| steps_done (c : Config) : steps c c
| steps_more (c1 c2 c3 : Config) : step c1 c2 -> steps c2 c3 -> steps c1 c3.

(** One call running with nothing in between. *)
Inductive alone (w : World) : State -> option Pending -> State -> Prop :=
| alone_done (s : State) : alone w s None s
| alone_more (s s1 s' : State) (p : Pending) (p1 : option Pending) :
    resume w p s = (s1, p1) -> alone w s1 p1 s' -> alone w s (Some p) s'.

End Interleaved.

(* ------------------------------------------------------------------ *)
(** ** Reading a trace *)
(* ------------------------------------------------------------------ *)

(** The console lines [initializeGroq] leaves, one per call. *)
Definition is_init_line (e : Effect) : bool :=
  match e with
  | ConsoleLog line => String.eqb line "Groq AI service initialized successfully"
  | ConsoleError label _ => String.eqb label "Failed to initialize Groq:"
  | _ => false
  end.

Definition init_calls (tr : list Effect) : nat := List.length (List.filter is_init_line tr).

(** The provider requests submitted, oldest first. *)
Fixpoint provider_requests (tr : list Effect) : list ChatRequest :=
  match tr with
  | [] => []
  | ProviderRequest _ request :: rest => request :: provider_requests rest
  | _ :: rest => provider_requests rest
  end.

(* ------------------------------------------------------------------ *)
(** ** Vocabulary of the claims *)
(* ------------------------------------------------------------------ *)

(** [sub] occurs in [s]. *)
Definition Substring (sub s : string) : Prop :=
  exists before after : string, s = before ++ sub ++ after.

(** The message of an error names a transient cause. *)
Definition Retryable (m : string) : Prop :=
  Substring "timeout" m \/ Substring "rate limit" m \/ Substring "connection" m.

Definition retryable_message (m : string) : bool :=
  includes m "timeout" || includes m "rate limit" || includes m "connection".


(** The content of the first choice of a completion, when there is one. *)
Definition first_content (completion : ChatCompletion) : option string :=
  match choices completion with
  | [] => None
  | choice :: _ =>
      match choice_message choice with
      | None => None
      | Some m => message_content m
      end
  end.

Definition log_to (s : State) (e : Effect) : State :=
  {| groq := groq s;
     initializationAttempts := initializationAttempts s;
     trace := trace s ++ [e] |}.

(** The options [initializeGroq] builds from a key. *)
Definition options_for (key : string) : GroqOptions :=
  {| apiKey := key; timeout := 30000 |}.

(** Why [initializeGroq] fails in a world, if it does. *)
Definition init_failure (w : World) : option JsError :=
  match configured_key w with
  | None => Some (Error "GROQ_API_KEY is not set in environment variables")
  | Some key => Groq_constructor_throws w (options_for key)
  end.

(** One failed turn: the console line of [initializeGroq], the counter
    incremented, the timer. *)
Definition after_failed_turn (e : JsError) (s : State) : State :=
  {| groq := groq s;
     initializationAttempts := initializationAttempts s + 1;
     trace := trace s ++ [ ConsoleError "Failed to initialize Groq:" (message e);
                           SetTimeout (1000 * (initializationAttempts s + 1)) ] |}.

(** [rounds] failed turns in a row, the counter starting at [from]. *)
Fixpoint failed_rounds (e : JsError) (from : Z) (rounds : nat) : list Effect :=
  match rounds with
  | O => []
  | S k =>
      ConsoleError "Failed to initialize Groq:" (message e)
        :: SetTimeout (1000 * (from + 1))
        :: failed_rounds e (from + 1) k
  end.

(** The counter has reached the cap and no client exists. *)
Definition exhausted (s : State) : Prop :=
  groq s = None /\ MAX_INITIALIZATION_ATTEMPTS <= initializationAttempts s.

(** What a request gets once the cap is reached. *)
Definition refused (request : World * Request) (outcome : Result Response) : Prop :=
  match snd request with
  | GET_health => exists r : Response, outcome = Normal r
  | POST_api_suggest _ | POST_api_format _ => outcome = Normal unavailable_response
  end.

(** The state in which the [try] block of a POST handler runs, or in which
    the handler gives up: the state left by the on-demand retry pass, which
    is made only when the handle is absent. *)
Definition on_demand_retry (w : World) (s : State) : State :=
  match groq s with
  | None => fst (initializeGroqWithRetry w s)
  | Some _ => s
  end.

(** The request body passes both checks on [text], and [text] reads
    [shown] where the template literal interpolates it. *)
Definition accepted (eng : Engine) (body : JsVal) (text : JsVal) (shown : string) : Prop :=
  destructure_text eng body = Normal text
  /\ truthy text = true
  /\ (exists len : JsVal,
        get_length eng text = Normal len /\ GreaterThan eng len 32000 = Normal false)
  /\ ToString eng text = Normal shown.

(** The answer of a catch block to the value it caught; [fallback] is the
    endpoint's own text for a value without a usable message. *)
Definition classified (fallback : string) (error : JsError) : Response :=
  let isRetryableError :=
    js_or (js_or (optional_includes (message error) "timeout")
                 (optional_includes (message error) "rate limit"))
          (optional_includes (message error) "connection") in
  {| status := if truthy isRetryableError then 503 else 500;
     json := JObj [ ("error", JStr "AI service error");
                    ("message", js_or (of_optional_string (message error)) (JStr fallback));
                    ("retryable", isRetryableError) ] |}.

Definition too_long_response : Response :=
  {| status := 400;
     json := JObj [ ("error", JStr "Text too long");
                    ("message", JStr "The provided text exceeds the maximum length limit") ] |}.

(** What the [try] block does with the provider's answer, on a request
    that passed the checks. *)
Definition answer_with (key : string) (error_message : string)
    (settled : Settled) (s : State) : State * Result Response :=
  match settled with
  | Resolved completion =>
      if truthy (first_choice_content completion)
      then (s, Normal (res_json (JObj [ (key, first_choice_content completion) ])))
      else (s, Throw (Error error_message))
  | Rejected error => (s, Throw error)
  end.

(** How a handler ends once the [try] block is over: a response goes out
    as it is, a thrown value goes through the [catch] block. *)
Definition finish (label fallback : string) (outcome : State * Result Response)
  : State * Result Response :=
  match outcome with
  | (s, Normal r) => (s, Normal r)
  | (s, Throw e) =>
      (log_to s (ConsoleError label (message e)), Normal (classified fallback e))
  end.



(** The request reaches the provider on both endpoints with [shown]
    interpolated in the prompt, and is not answered 400. *)
Definition reaches_provider (w : World) (body : JsVal) (s : State) (shown : string) : Prop :=
  (exists (s' : State) (r : Response),
     post_api_suggest w body s = (s', Normal r)
     /\ (status r = 200 \/ status r = 500 \/ status r = 503)
     /\ provider_requests (trace s')
        = (provider_requests (trace (on_demand_retry w s))
           ++ [suggest_request (suggest_prompt shown)])%list)
  /\ (exists (s' : State) (r : Response),
        post_api_format w body s = (s', Normal r)
        /\ (status r = 200 \/ status r = 500 \/ status r = 503)
        /\ provider_requests (trace s')
           = (provider_requests (trace (on_demand_retry w s))
              ++ [format_request (format_prompt shown)])%list).

(* ------------------------------------------------------------------ *)
(** ** Sample worlds and inputs *)
(* ------------------------------------------------------------------ *)

Module Samples.

(** An engine for the samples: errors worded after V8's, and strings
    compared as numbers only when they are plain runs of decimal digits (no
    sample compares any other string). *)
Definition v8 : Engine :=
  {| TypeError_message := fun k =>
       match k with
       | CannotDestructure => "Cannot destructure property 'text' of 'req.body' as it is undefined."
       | CannotReadProperty => "Cannot read properties of undefined"
       | CannotConvertToPrimitive => "Cannot convert object to primitive value"
       end;
     StringToNumber_gt := fun s n =>
       match NilEmpty.uint_of_string s with
       | Some digits => Z.of_uint digits >? n
       | None => false
       end |}.

Definition answer (text : option string) : ChatCompletion :=
  {| choices := [ {| choice_message := Some {| message_content := text |} |} ] |}.

(** No credential configured. *)
Definition no_key : World :=
  {| GROQ_API_KEY := None;
     Groq_constructor_throws := fun _ => None;
     chat_completions_create := fun _ _ => Resolved (answer (Some "Hello world."));
     Date_toISOString := "2024-05-01T12:00:00.000Z";
     engine := v8 |}.

(** A credential, and a provider that answers [reply]. *)
Definition with_provider (reply : Settled) : World :=
  {| GROQ_API_KEY := Some "gsk_test";
     Groq_constructor_throws := fun _ => None;
     chat_completions_create := fun _ _ => reply;
     Date_toISOString := "2024-05-01T12:00:00.000Z";
     engine := v8 |}.

Definition healthy : World := with_provider (Resolved (answer (Some "Hello world."))).

Definition client : Groq := {| options := {| apiKey := "gsk_test"; timeout := 30000 |} |}.

(** The process once a client exists. *)
Definition ready : State :=
  {| groq := Some client; initializationAttempts := 0; trace := [] |}.

(** The process after three failed attempts. *)
Definition given_up : State :=
  {| groq := None; initializationAttempts := 3; trace := [] |}.

Definition body_of (text : JsVal) : JsVal := JObj [ ("text", text) ].

(** A string of [n] letters. *)
Fixpoint letters (n : nat) : string :=
  match n with
  | O => EmptyString
  | S k => String "a" (letters k)
  end.

(** Strings at the limit and just over it. *)
Definition text_32000 : string := letters (Z.to_nat 32000).
Definition text_32001 : string := letters (Z.to_nat 32001).

(** A short document to improve. *)
Definition helo : JsVal := body_of (JStr "helo wrld").



End Samples.

(* ------------------------------------------------------------------ *)
(** ** Further vocabulary: traces, answers, overlapping calls *)
(* ------------------------------------------------------------------ *)

(** The delays of the timers awaited, oldest first, and their sum. *)
Fixpoint timers (tr : list Effect) : list Z :=
  match tr with
  | [] => []
  | SetTimeout ms :: rest => ms :: timers rest
  | _ :: rest => timers rest
  end.

Definition total_delay (tr : list Effect) : Z := List.fold_right Z.add 0 (timers tr).

(** The two console lines of [initializeGroq], counted apart. *)
Definition is_failure_line (e : Effect) : bool :=
  match e with
  | ConsoleError label _ => String.eqb label "Failed to initialize Groq:"
  | _ => false
  end.

Definition is_success_line (e : Effect) : bool :=
  match e with
  | ConsoleLog line => String.eqb line "Groq AI service initialized successfully"
  | _ => false
  end.

Definition init_failures (tr : list Effect) : nat :=
  List.length (List.filter is_failure_line tr).

Definition init_successes (tr : list Effect) : nat :=
  List.length (List.filter is_success_line tr).

(** A state with more on its trace and the same two variables. *)
Definition extend (s : State) (tail : list Effect) : State :=
  {| groq := groq s;
     initializationAttempts := initializationAttempts s;
     trace := (trace s ++ tail)%list |}.

(** A failure as the client reads it: an object that starts with a
    non-empty [error] string and a non-empty [message] string. *)
Definition error_body (r : Response) : Prop :=
  exists (e m : string) (rest : list (string * JsVal)),
    sent r = Some (JObj (("error", JStr e) :: ("message", JStr m) :: rest))
    /\ String.eqb e "" = false
    /\ String.eqb m "" = false.

(** A success as the client reads it: exactly one field, [key], holding a
    non-empty string. *)
Definition success_body (key : string) (r : Response) : Prop :=
  exists c : string,
    json r = JObj [ (key, JStr c) ]
    /\ sent r = Some (JObj [ (key, JStr c) ])
    /\ String.eqb c "" = false.

(** What a [try] block can come to, from state [s]: a 400 with the state
    untouched, a throw before the provider is asked, or one provider
    request followed by a throw or by the 200 answer. *)
Definition try_result (key : string) (s : State) (res : State * Result Response) : Prop :=
  (exists r : Response, res = (s, Normal r) /\ status r = 400 /\ error_body r)
  \/ (exists e : JsError, res = (s, Throw e))
  \/ (exists (cl : Groq) (req : ChatRequest),
        groq s = Some cl
        /\ ((exists e : JsError, res = (log_to s (ProviderRequest cl req), Throw e))
            \/ (exists r : Response,
                  res = (log_to s (ProviderRequest cl req), Normal r)
                  /\ status r = 200 /\ success_body key r))).

(** How a POST handler answers from the state [s] in which its [try]
    block starts: the two variables are left alone, the trace grows by
    [tail], which holds no line of [initializeGroq] and no timer; a 400
    adds nothing; a 200 adds exactly the provider request; a 500 or 503
    adds at most one provider request. *)
Definition answered (key : string) (s s' : State) (r : Response) : Prop :=
  exists tail : list Effect,
    s' = extend s tail
    /\ init_calls tail = 0%nat
    /\ timers tail = []
    /\ ((status r = 400 /\ error_body r /\ tail = [])
        \/ (status r = 200 /\ success_body key r
            /\ exists (cl : Groq) (req : ChatRequest), tail = [ProviderRequest cl req])
        \/ ((status r = 500 \/ status r = 503) /\ error_body r
            /\ (List.length (provider_requests tail) <= 1)%nat)).

(** 1 while no client exists, 0 afterwards. *)
Definition absent (s : State) : nat :=
  match groq s with Some _ => 0%nat | None => 1%nat end.

(** The process right after module load: the start-up call of the loop
    has run up to its first await, in the world [w0] of that moment. *)
Definition started (w0 : World) : Interleaved.Config :=
  (fst (Interleaved.enter w0 initial_state),
   Interleaved.suspend (snd (Interleaved.enter w0 initial_state)) []).

(** A call suspended right after an [initializeGroq()] that failed: its
    failure is logged, the counter not yet incremented. *)
Definition just_failed (p : Interleaved.Pending) : bool :=
  match p with
  | Interleaved.AwaitingInit false => true
  | _ => false
  end.

Definition uncounted_failures (ps : list Interleaved.Pending) : nat :=
  List.length (List.filter just_failed ps).

(** Some call of the loop is still on its way to another guard check, or
    the process is settled already; and a call that saw [initializeGroq]
    succeed is only ever suspended while the client exists. *)
Definition running_or_settled (c : Interleaved.Config) : Prop :=
  (may_attempt (fst c) = false
   \/ exists p : Interleaved.Pending,
        List.In p (snd c) /\ p <> Interleaved.AwaitingInit true)
  /\ (List.In (Interleaved.AwaitingInit true) (snd c) ->
      exists cl : Groq, groq (fst c) = Some cl).

(** The books of the lifecycle code balance: every failure logged is in
    the counter or belongs to a call that has not incremented it yet; one
    success logged, or no client; a client built as [initializeGroq]
    builds it. *)
Definition accounted (c : Interleaved.Config) : Prop :=
  0 <= initializationAttempts (fst c)
  /\ Z.of_nat (init_failures (trace (fst c)))
     = initializationAttempts (fst c) + Z.of_nat (uncounted_failures (snd c))
  /\ (init_successes (trace (fst c)) + absent (fst c) = 1)%nat
  /\ (forall cl : Groq,
        groq (fst c) = Some cl ->
        timeout (options cl) = 30000 /\ String.eqb (apiKey (options cl)) "" = false).

(* ================================================================== *)
(** * Part II.  Lemmas *)
(* ================================================================== *)

(* ------------------------------------------------------------------ *)
(** ** Substring search *)
(* ------------------------------------------------------------------ *)

Lemma prefix_append (sub s : string) :
  String.prefix sub s = true <-> exists after, s = sub ++ after.
Proof.
  revert s. induction sub as [|c sub IH]; intros s; simpl.
  - split; [intros _; exists s; destruct s; reflexivity | destruct s; reflexivity].
  - destruct s as [|d s]; simpl.
    + split; [discriminate | intros [after H]; discriminate].
    + destruct (ascii_dec c d) as [->|Hne].
      * rewrite IH. split; intros [after H]; exists after; congruence.
      * split; [discriminate | intros [after H]; congruence].
Qed.

Lemma includes_unfold (s sub : string) :
  includes s sub =
    if String.prefix sub s then true
    else match s with
         | EmptyString => false
         | String _ s' => includes s' sub
         end.
Proof. destruct s; reflexivity. Qed.

Lemma includes_Substring (s sub : string) :
  includes s sub = true <-> Substring sub s.
Proof.
  unfold Substring. induction s as [|c s IH]; rewrite includes_unfold.
  - destruct (String.prefix sub "") eqn:Hp.
    + split; [intros _ | reflexivity].
      apply prefix_append in Hp. destruct Hp as [after H].
      exists "", after. exact H.
    + split; [discriminate |].
      intros [before [after H]].
      destruct before; simpl in H; [|discriminate].
      assert (String.prefix sub "" = true) by (apply prefix_append; eauto).
      congruence.
  - destruct (String.prefix sub (String c s)) eqn:Hp.
    + split; [intros _ | reflexivity].
      apply prefix_append in Hp. destruct Hp as [after H].
      exists "", after. exact H.
    + rewrite IH. split.
      * intros [before [after H]]. exists (String c before), after.
        simpl. congruence.
      * intros [before [after H]].
        destruct before as [|d before]; simpl in H.
        -- assert (String.prefix sub (String c s) = true) by (apply prefix_append; eauto).
           congruence.
        -- exists before, after. congruence.
Qed.

Lemma retryable_message_spec (m : string) :
  retryable_message m = true <-> Retryable m.
Proof.
  unfold retryable_message, Retryable.
  rewrite !orb_true_iff, !includes_Substring. tauto.
Qed.

(* ------------------------------------------------------------------ *)
(** ** Client lifecycle *)
(* ------------------------------------------------------------------ *)

(** [initializeGroq] leaves the counter alone; the loop below terminates
    on that. *)
Lemma initializeGroq_attempts (w : World) (s : State) :
  initializationAttempts (fst (initializeGroq w s)) = initializationAttempts s.
Proof.
  unfold initializeGroq, try_catch, new_Groq, bind, throw, ret, emit, write_groq.
  destruct (configured_key w) as [key|]; simpl; [|reflexivity].
  destruct (Groq_constructor_throws w _); reflexivity.
Qed.

Lemma back_off_attempts (s : State) :
  initializationAttempts (fst (back_off s)) = initializationAttempts s + 1.
Proof. reflexivity. Qed.

Lemma back_off_normal (s : State) : snd (back_off s) = Normal tt.
Proof. reflexivity. Qed.

Lemma configured_key_None (w : World) :
  configured_key w = None <-> GROQ_API_KEY w = None \/ GROQ_API_KEY w = Some "".
Proof.
  unfold configured_key. destruct (GROQ_API_KEY w) as [k|].
  - destruct (String.eqb_spec k "") as [->|Hne].
    + split; auto.
    + split; [discriminate | intros [H|H]; congruence].
  - split; auto.
Qed.

Lemma initializeGroq_failure (w : World) (s : State) (e : JsError) :
  init_failure w = Some e ->
  initializeGroq w s =
    (log_to s (ConsoleError "Failed to initialize Groq:" (message e)), Normal false).
Proof.
  unfold init_failure, initializeGroq, try_catch, new_Groq, options_for.
  destruct (configured_key w) as [key|].
  - intros H. unfold bind. rewrite H. reflexivity.
  - intros H. injection H as <-. reflexivity.
Qed.

Lemma initializeGroq_success (w : World) (s : State) (key : string) :
  configured_key w = Some key ->
  Groq_constructor_throws w (options_for key) = None ->
  initializeGroq w s =
    ({| groq := Some {| options := options_for key |};
        initializationAttempts := initializationAttempts s;
        trace := trace s ++ [ConsoleLog "Groq AI service initialized successfully"] |},
     Normal true).
Proof.
  unfold initializeGroq, try_catch, new_Groq, options_for.
  intros Hk Hc. rewrite Hk. unfold bind. rewrite Hc. reflexivity.
Qed.

Lemma initializeGroq_returns (w : World) (s : State) :
  exists b : bool, snd (initializeGroq w s) = Normal b.
Proof.
  destruct (init_failure w) as [e|] eqn:Hf.
  - rewrite (initializeGroq_failure w s e Hf). exists false. reflexivity.
  - unfold init_failure in Hf. destruct (configured_key w) as [key|] eqn:Hk; [|discriminate].
    rewrite (initializeGroq_success w s key Hk Hf). exists true. reflexivity.
Qed.

(** The loop, one turn unrolled. *)
Lemma retry_loop_turn (w : World) (s : State) :
  initializeGroqWithRetry w s =
    if may_attempt s then
      match initializeGroq w s with
      | (s1, Throw e) => (s1, Throw e)
      | (s1, Normal true) => (s1, Normal tt)
      | (s1, Normal false) => (back_off ;; initializeGroqWithRetry w) s1
      end
    else (s, Normal tt).
Proof.
  funelim (initializeGroqWithRetry w s);
    repeat match goal with
           | H : may_attempt _ = _ |- _ => rewrite H
           | H : initializeGroq _ _ = _ |- _ => rewrite H
           | H : Normal _ = Throw _ |- _ => discriminate H
           end;
    reflexivity.
Qed.

Lemma may_attempt_true (s : State) :
  may_attempt s = true <->
  groq s = None /\ initializationAttempts s < MAX_INITIALIZATION_ATTEMPTS.
Proof.
  unfold may_attempt. rewrite andb_true_iff, Z.ltb_lt.
  destruct (groq s); split; intros [H1 H2]; split; auto; discriminate.
Qed.

Lemma retry_idle (w : World) (s : State) :
  may_attempt s = false -> initializeGroqWithRetry w s = (s, Normal tt).
Proof. intros H. rewrite retry_loop_turn, H. reflexivity. Qed.

Lemma retry_success (w : World) (s : State) (key : string) :
  may_attempt s = true ->
  configured_key w = Some key ->
  Groq_constructor_throws w (options_for key) = None ->
  initializeGroqWithRetry w s =
    ({| groq := Some {| options := options_for key |};
        initializationAttempts := initializationAttempts s;
        trace := trace s ++ [ConsoleLog "Groq AI service initialized successfully"] |},
     Normal tt).
Proof.
  intros Hg Hk Hc.
  rewrite retry_loop_turn, Hg, (initializeGroq_success w s key Hk Hc). reflexivity.
Qed.

Lemma retry_failure_turn (w : World) (s : State) (e : JsError) :
  may_attempt s = true ->
  init_failure w = Some e ->
  initializeGroqWithRetry w s = initializeGroqWithRetry w (after_failed_turn e s).
Proof.
  intros Hg Hf.
  rewrite retry_loop_turn, Hg, (initializeGroq_failure w s e Hf).
  unfold bind, back_off, increment_attempts, read_attempts, sleep, emit, log_to,
    after_failed_turn. simpl.
  rewrite <- app_assoc. reflexivity.
Qed.

(** Where initialisation cannot succeed, the loop uses up what is left of
    the three attempts and returns with the handle absent. *)
Lemma retry_failure (w : World) (e : JsError) :
  init_failure w = Some e ->
  forall (rounds : nat) (s : State),
    groq s = None ->
    rounds = Z.to_nat (MAX_INITIALIZATION_ATTEMPTS - initializationAttempts s) ->
    initializeGroqWithRetry w s =
      ({| groq := None;
          initializationAttempts := initializationAttempts s + Z.of_nat rounds;
          trace := trace s ++ failed_rounds e (initializationAttempts s) rounds |},
       Normal tt).
Proof.
  intros Hf. induction rounds as [|k IH]; intros s Hg Hk.
  - rewrite retry_idle.
    + destruct s as [g n tr]. simpl in *. subst g.
      rewrite Z.add_0_r, app_nil_r. reflexivity.
    + unfold may_attempt. apply andb_false_iff. left. apply Z.ltb_ge.
      unfold MAX_INITIALIZATION_ATTEMPTS in *. lia.
  - unfold MAX_INITIALIZATION_ATTEMPTS in *.
    rewrite (retry_failure_turn w s e);
      [| apply may_attempt_true; unfold MAX_INITIALIZATION_ATTEMPTS; split; [exact Hg|lia]
       | exact Hf].
    rewrite (IH (after_failed_turn e s)); [| exact Hg | cbn [after_failed_turn initializationAttempts]; lia].
    cbn [after_failed_turn initializationAttempts trace failed_rounds].
    rewrite <- app_assoc. simpl app.
    f_equal. f_equal. lia.
Qed.

(** The loop never throws. *)
Lemma retry_returns (w : World) (s : State) :
  snd (initializeGroqWithRetry w s) = Normal tt.
Proof.
  destruct (may_attempt s) eqn:Hg.
  - destruct (init_failure w) as [e|] eqn:Hf.
    + apply may_attempt_true in Hg. destruct Hg as [Hg _].
      rewrite (retry_failure w e Hf _ s Hg eq_refl). reflexivity.
    + unfold init_failure in Hf.
      destruct (configured_key w) as [key|] eqn:Hk; [|discriminate].
      rewrite (retry_success w s key Hg Hk Hf). reflexivity.
  - rewrite (retry_idle w s Hg). reflexivity.
Qed.

(** Each call of [initializeGroq] leaves exactly one console line of its
    own, so the calls can be counted on the trace. *)
Lemma initializeGroq_leaves_a_line (w : World) (s : State) :
  init_calls (trace (fst (initializeGroq w s))) = S (init_calls (trace s)).
Proof.
  unfold init_calls.
  destruct (init_failure w) as [e|] eqn:Hf.
  - rewrite (initializeGroq_failure w s e Hf). simpl.
    rewrite filter_app, length_app. simpl. lia.
  - unfold init_failure in Hf.
    destruct (configured_key w) as [key|] eqn:Hk; [|discriminate].
    rewrite (initializeGroq_success w s key Hk Hf). simpl.
    rewrite filter_app, length_app. simpl. lia.
Qed.

(* ------------------------------------------------------------------ *)
(** ** After the cap *)
(* ------------------------------------------------------------------ *)

Lemma exhausted_idle (s : State) : exhausted s -> may_attempt s = false.
Proof.
  intros [_ Hcap]. unfold may_attempt.
  apply andb_false_iff. left. apply Z.ltb_ge. exact Hcap.
Qed.

Lemma suggest_exhausted (w : World) (body : JsVal) (s : State) :
  exhausted s -> post_api_suggest w body s = (s, Normal unavailable_response).
Proof.
  intros Hx. pose proof (exhausted_idle s Hx) as Hidle. destruct Hx as [Hg _].
  unfold post_api_suggest, bind, read_groq, ret.
  rewrite Hg, (retry_idle w s Hidle), Hg. reflexivity.
Qed.

Lemma format_exhausted (w : World) (body : JsVal) (s : State) :
  exhausted s -> post_api_format w body s = (s, Normal unavailable_response).
Proof.
  intros Hx. pose proof (exhausted_idle s Hx) as Hidle. destruct Hx as [Hg _].
  unfold post_api_format, bind, read_groq, ret.
  rewrite Hg, (retry_idle w s Hidle), Hg. reflexivity.
Qed.

(** The health handler reads the state and changes nothing. *)
Lemma get_health_eq (w : World) (s : State) :
  get_health w s =
    (s, Normal
          {| status := 200;
             json :=
               JObj [ ("server", JStr "healthy");
                      ("aiService", JStr (match groq s with
                                          | Some _ => "available"
                                          | None => "unavailable"
                                          end));
                      ("aiError", match groq s with
                                  | None => JStr ("AI service not initialized after "
                                                  ++ NumberToString (initializationAttempts s)
                                                  ++ " attempts")
                                  | Some _ => JNull
                                  end);
                      ("timestamp", JStr (Date_toISOString w)) ] |}).
Proof. reflexivity. Qed.

Lemma serve_all_exhausted (s : State) :
  exhausted s ->
  forall reqs : list (World * Request),
    fst (serve_all reqs s) = s /\ Forall2 refused reqs (snd (serve_all reqs s)).
Proof.
  intros Hx. induction reqs as [|[w r] rest [IHs IHr]]; simpl.
  - split; constructor.
  - assert (Hr : exists o, route w r s = (s, o) /\ refused (w, r) o).
    { destruct r as [|body|body]; simpl.
      - rewrite get_health_eq. eexists. split; [reflexivity|].
        unfold refused. simpl. eauto.
      - rewrite (suggest_exhausted w body s Hx). eexists. split; reflexivity.
      - rewrite (format_exhausted w body s Hx). eexists. split; reflexivity. }
    destruct Hr as [o [Ho Hrefused]]. rewrite Ho.
    destruct (serve_all rest s) as [s2 outcomes]. simpl in *.
    split; [exact IHs|]. constructor; assumption.
Qed.

(* ------------------------------------------------------------------ *)
(** ** The loop, step by step *)
(* ------------------------------------------------------------------ *)

Module InterleavedFacts.
Import Interleaved.

(** The sequential loop is the stepped one left to run alone. *)
Lemma alone_is_sequential (w : World) :
  forall (rounds : nat) (s : State),
    rounds = Z.to_nat (MAX_INITIALIZATION_ATTEMPTS - initializationAttempts s) ->
    alone w (fst (enter w s)) (snd (enter w s)) (fst (initializeGroqWithRetry w s)).
Proof.
  induction rounds as [|k IH]; intros s Hk.
  - assert (Hidle : may_attempt s = false).
    { unfold may_attempt. apply andb_false_iff. left. apply Z.ltb_ge.
      unfold MAX_INITIALIZATION_ATTEMPTS in *. lia. }
    unfold enter. rewrite (retry_idle w s Hidle), Hidle. constructor.
  - unfold enter. rewrite retry_loop_turn.
    destruct (may_attempt s) eqn:Hg; [|constructor].
    destruct (initializeGroq_returns w s) as [ok Hok].
    pose proof (initializeGroq_attempts w s) as Hsame.
    destruct (initializeGroq w s) as [s1 r]. simpl in Hok, Hsame. subst r.
    destruct ok; simpl fst; simpl snd.
    + econstructor; [reflexivity | constructor].
    + econstructor; [reflexivity|].
      eapply alone_more; [apply surjective_pairing|].
      change (resume w AwaitingTimer (fst (back_off s1))) with (enter w (fst (back_off s1))).
      unfold bind. rewrite (surjective_pairing (back_off s1)), back_off_normal.
      apply IH. rewrite back_off_attempts, Hsame.
      apply may_attempt_true in Hg. unfold MAX_INITIALIZATION_ATTEMPTS in *. lia.
Qed.

Lemma step_keeps_exhausted (c c' : Config) :
  step c c' ->
  exhausted (fst c) ->
  exhausted (fst c')
  /\ initializationAttempts (fst c) <= initializationAttempts (fst c')
  /\ init_calls (trace (fst c')) = init_calls (trace (fst c)).
Proof.
  assert (Henter : forall w s, exhausted s -> enter w s = (s, None)).
  { intros w s Hx. unfold enter. rewrite (exhausted_idle s Hx). reflexivity. }
  intros Hstep Hx. destruct Hstep as [w s ps | w s before after p]; simpl fst in *.
  - rewrite (Henter w s Hx). simpl. split; [exact Hx|]. split; [lia | reflexivity].
  - destruct p as [[|]|]; simpl.
    + split; [exact Hx|]. split; [lia | reflexivity].
    + destruct Hx as [Hg Hcap]. split; [split; simpl; [exact Hg | lia]|].
      split; [lia|].
      unfold init_calls. rewrite filter_app, length_app. simpl. lia.
    + rewrite (Henter w s Hx). simpl. split; [exact Hx|]. split; [lia | reflexivity].
Qed.

Lemma steps_keep_exhausted (c c' : Config) :
  steps c c' ->
  exhausted (fst c) ->
  exhausted (fst c')
  /\ initializationAttempts (fst c) <= initializationAttempts (fst c')
  /\ init_calls (trace (fst c')) = init_calls (trace (fst c)).
Proof.
  induction 1 as [c | c1 c2 c3 Hstep _ IH]; intros Hx.
  - split; [exact Hx|]. split; [lia | reflexivity].
  - destruct (step_keeps_exhausted c1 c2 Hstep Hx) as (Hx2 & Hle2 & Hcalls2).
    destruct (IH Hx2) as (Hx3 & Hle3 & Hcalls3).
    split; [exact Hx3|]. split; [lia | congruence].
Qed.

End InterleavedFacts.

(* ------------------------------------------------------------------ *)
(** ** The POST handlers, phase by phase *)
(* ------------------------------------------------------------------ *)

(** Running a computation up to the next call whose result is known. *)
Ltac run := cbv beta iota delta [bind lift ret throw read_groq negb].
Ltac known H := rewrite H; run.

Lemma post_api_suggest_entry (w : World) (body : JsVal) (s : State) :
  post_api_suggest w body s =
    match groq (on_demand_retry w s) with
    | None => (on_demand_retry w s, Normal unavailable_response)
    | Some _ => try_catch (suggest_try w body) suggest_catch (on_demand_retry w s)
    end.
Proof.
  unfold post_api_suggest, on_demand_retry, bind, read_groq, ret.
  destruct (groq s) as [c|] eqn:Hg.
  - rewrite Hg. reflexivity.
  - pose proof (retry_returns w s) as Hr.
    destruct (initializeGroqWithRetry w s) as [s1 r]. simpl in Hr. subst r.
    simpl fst. destruct (groq s1); reflexivity.
Qed.

Lemma post_api_format_entry (w : World) (body : JsVal) (s : State) :
  post_api_format w body s =
    match groq (on_demand_retry w s) with
    | None => (on_demand_retry w s, Normal unavailable_response)
    | Some _ => try_catch (format_try w body) format_catch (on_demand_retry w s)
    end.
Proof.
  unfold post_api_format, on_demand_retry, bind, read_groq, ret.
  destruct (groq s) as [c|] eqn:Hg.
  - rewrite Hg. reflexivity.
  - pose proof (retry_returns w s) as Hr.
    destruct (initializeGroqWithRetry w s) as [s1 r]. simpl in Hr. subst r.
    simpl fst. destruct (groq s1); reflexivity.
Qed.

(** The classified answer to an error whose message is a string. *)
Lemma classified_message (fallback m : string) :
  classified fallback (Error m) =
    {| status := if retryable_message m then 503 else 500;
       json := JObj [ ("error", JStr "AI service error");
                      ("message", JStr (if String.eqb m "" then fallback else m));
                      ("retryable", JBool (retryable_message m)) ] |}.
Proof.
  unfold classified, retryable_message, js_or. simpl.
  destruct (includes m "timeout"), (includes m "rate limit"), (includes m "connection");
    destruct (String.eqb m ""); reflexivity.
Qed.

Lemma suggest_try_missing (w : World) (body text : JsVal) (s : State) :
  destructure_text (engine w) body = Normal text ->
  truthy text = false ->
  suggest_try w body s =
    (s, Normal {| status := 400;
                  json := JObj [ ("error", JStr "Missing text");
                                 ("message", JStr "Please provide text to get suggestions") ] |}).
Proof.
  intros Ht Hf. unfold suggest_try. run. known Ht. known Hf. reflexivity.
Qed.

Lemma format_try_missing (w : World) (body text : JsVal) (s : State) :
  destructure_text (engine w) body = Normal text ->
  truthy text = false ->
  format_try w body s =
    (s, Normal {| status := 400;
                  json := JObj [ ("error", JStr "Missing text");
                                 ("message", JStr "Please provide text to format") ] |}).
Proof.
  intros Ht Hf. unfold format_try. run. known Ht. known Hf. reflexivity.
Qed.

Lemma suggest_try_too_long (w : World) (body text len : JsVal) (s : State) :
  destructure_text (engine w) body = Normal text ->
  truthy text = true ->
  get_length (engine w) text = Normal len ->
  GreaterThan (engine w) len 32000 = Normal true ->
  suggest_try w body s = (s, Normal too_long_response).
Proof.
  intros Ht Hf Hl Hg. unfold suggest_try. run.
  known Ht. known Hf. known Hl. known Hg. reflexivity.
Qed.

Lemma format_try_too_long (w : World) (body text len : JsVal) (s : State) :
  destructure_text (engine w) body = Normal text ->
  truthy text = true ->
  get_length (engine w) text = Normal len ->
  GreaterThan (engine w) len 32000 = Normal true ->
  format_try w body s = (s, Normal too_long_response).
Proof.
  intros Ht Hf Hl Hg. unfold format_try. run.
  known Ht. known Hf. known Hl. known Hg. reflexivity.
Qed.

Lemma suggest_try_accepted (w : World) (body text : JsVal) (shown : string)
    (client : Groq) (s : State) :
  accepted (engine w) body text shown ->
  groq s = Some client ->
  suggest_try w body s =
    answer_with "suggestion" "No suggestion generated"
      (chat_completions_create w client (suggest_request (suggest_prompt shown)))
      (log_to s (ProviderRequest client (suggest_request (suggest_prompt shown)))).
Proof.
  intros (Ht & Hf & (len & Hl & Hg) & Hs) Hc.
  unfold suggest_try. run. known Ht. known Hf. known Hl. known Hg. known Hs.
  unfold create_completion. run. known Hc.
  unfold emit, log_to, answer_with. run.
  destruct (chat_completions_create w client _) as [completion|error]; [|reflexivity].
  destruct (truthy (first_choice_content completion)); reflexivity.
Qed.

Lemma format_try_accepted (w : World) (body text : JsVal) (shown : string)
    (client : Groq) (s : State) :
  accepted (engine w) body text shown ->
  groq s = Some client ->
  format_try w body s =
    answer_with "formattedText" "No formatted text generated"
      (chat_completions_create w client (format_request (format_prompt shown)))
      (log_to s (ProviderRequest client (format_request (format_prompt shown)))).
Proof.
  intros (Ht & Hf & (len & Hl & Hg) & Hs) Hc.
  unfold format_try. run. known Ht. known Hf. known Hl. known Hg. known Hs.
  unfold create_completion. run. known Hc.
  unfold emit, log_to, answer_with. run.
  destruct (chat_completions_create w client _) as [completion|error]; [|reflexivity].
  destruct (truthy (first_choice_content completion)); reflexivity.
Qed.

Lemma post_api_suggest_accepted (w : World) (body text : JsVal) (shown : string)
    (client : Groq) (s : State) :
  accepted (engine w) body text shown ->
  groq (on_demand_retry w s) = Some client ->
  post_api_suggest w body s =
    finish "Error generating suggestion:" "Failed to generate suggestion"
      (answer_with "suggestion" "No suggestion generated"
         (chat_completions_create w client (suggest_request (suggest_prompt shown)))
         (log_to (on_demand_retry w s)
            (ProviderRequest client (suggest_request (suggest_prompt shown))))).
Proof.
  intros Ha Hc. rewrite post_api_suggest_entry, Hc. unfold try_catch.
  rewrite (suggest_try_accepted w body text shown client _ Ha Hc).
  destruct (answer_with _ _ _ _) as [s2 [r|e]]; reflexivity.
Qed.

Lemma post_api_format_accepted (w : World) (body text : JsVal) (shown : string)
    (client : Groq) (s : State) :
  accepted (engine w) body text shown ->
  groq (on_demand_retry w s) = Some client ->
  post_api_format w body s =
    finish "Error formatting text:" "Failed to format text"
      (answer_with "formattedText" "No formatted text generated"
         (chat_completions_create w client (format_request (format_prompt shown)))
         (log_to (on_demand_retry w s)
            (ProviderRequest client (format_request (format_prompt shown))))).
Proof.
  intros Ha Hc. rewrite post_api_format_entry, Hc. unfold try_catch.
  rewrite (format_try_accepted w body text shown client _ Ha Hc).
  destruct (answer_with _ _ _ _) as [s2 [r|e]]; reflexivity.
Qed.

Lemma provider_requests_app (tr1 tr2 : list Effect) :
  provider_requests (tr1 ++ tr2) = (provider_requests tr1 ++ provider_requests tr2)%list.
Proof.
  induction tr1 as [|e tr1 IH]; simpl; [reflexivity|].
  destruct e; simpl; rewrite IH; reflexivity.
Qed.

Lemma classified_status (fallback : string) (e : JsError) :
  status (classified fallback e) = 503 \/ status (classified fallback e) = 500.
Proof.
  unfold classified. cbn [status].
  destruct (truthy _); [left | right]; reflexivity.
Qed.

(** A request that reaches the provider is answered 200, 500 or 503, and
    nothing further is asked of the provider. *)
Lemma finish_answer (label fallback key error_message : string)
    (settled : Settled) (s : State) :
  exists (s' : State) (r : Response),
    finish label fallback (answer_with key error_message settled s) = (s', Normal r)
    /\ (status r = 200 \/ status r = 500 \/ status r = 503)
    /\ provider_requests (trace s') = provider_requests (trace s).
Proof.
  unfold answer_with.
  destruct settled as [completion|error].
  - destruct (truthy (first_choice_content completion)).
    + do 2 eexists. split; [reflexivity|]. split; [left; reflexivity | reflexivity].
    + do 2 eexists. split; [reflexivity|]. split.
      * destruct (classified_status fallback (Error error_message)); auto.
      * cbn [log_to trace]. rewrite provider_requests_app. apply app_nil_r.
  - do 2 eexists. split; [reflexivity|]. split.
    + destruct (classified_status fallback error); auto.
    + cbn [log_to trace]. rewrite provider_requests_app. apply app_nil_r.
Qed.

(** A non-empty string of at most 32000 code units passes the checks. *)
Lemma string_accepted (eng : Engine) (body : JsVal) (t : string) :
  destructure_text eng body = Normal (JStr t) ->
  0 < Z.of_nat (String.length t) <= 32000 ->
  accepted eng body (JStr t) t.
Proof.
  intros Ht Hlen. unfold accepted. split; [exact Ht|]. split; [|split].
  - destruct t; [simpl in Hlen; lia | reflexivity].
  - eexists. split; [reflexivity|]. simpl. f_equal.
    rewrite Z.gtb_ltb. apply Z.ltb_ge. lia.
  - reflexivity.
Qed.

Lemma first_choice_content_eq (completion : ChatCompletion) :
  first_choice_content completion = of_optional_string (first_content completion).
Proof.
  unfold first_choice_content, first_content.
  destruct (choices completion) as [|choice rest]; [reflexivity|].
  destruct (choice_message choice); reflexivity.
Qed.

Lemma helo_accepted (w : World) : accepted (engine w) Samples.helo (JStr "helo wrld") "helo wrld".
Proof.
  unfold accepted. split; [reflexivity|]. split; [reflexivity|].
  split; [|reflexivity]. eexists. split; reflexivity.
Qed.

Lemma accepted_reaches_provider (w : World) (body text : JsVal) (shown : string)
    (client : Groq) (s : State) :
  groq (on_demand_retry w s) = Some client ->
  accepted (engine w) body text shown ->
  reaches_provider w body s shown.
Proof.
  intros Hc Ha. split.
  - rewrite (post_api_suggest_accepted w body text shown client s Ha Hc).
    destruct (finish_answer "Error generating suggestion:" "Failed to generate suggestion"
                "suggestion" "No suggestion generated"
                (chat_completions_create w client (suggest_request (suggest_prompt shown)))
                (log_to (on_demand_retry w s)
                   (ProviderRequest client (suggest_request (suggest_prompt shown)))))
      as (s' & r & Heq & Hst & Htr).
    exists s', r. split; [exact Heq|]. split; [exact Hst|].
    rewrite Htr. cbn [log_to trace]. rewrite provider_requests_app. reflexivity.
  - rewrite (post_api_format_accepted w body text shown client s Ha Hc).
    destruct (finish_answer "Error formatting text:" "Failed to format text"
                "formattedText" "No formatted text generated"
                (chat_completions_create w client (format_request (format_prompt shown)))
                (log_to (on_demand_retry w s)
                   (ProviderRequest client (format_request (format_prompt shown)))))
      as (s' & r & Heq & Hst & Htr).
    exists s', r. split; [exact Heq|]. split; [exact Hst|].
    rewrite Htr. cbn [log_to trace]. rewrite provider_requests_app. reflexivity.
Qed.

(* ------------------------------------------------------------------ *)
(** ** Counting on traces *)
(* ------------------------------------------------------------------ *)

Lemma timers_app (tr1 tr2 : list Effect) :
  timers (tr1 ++ tr2) = (timers tr1 ++ timers tr2)%list.
Proof.
  induction tr1 as [|e tr1 IH]; simpl; [reflexivity|].
  destruct e; simpl; rewrite IH; reflexivity.
Qed.

Lemma total_delay_app (tr1 tr2 : list Effect) :
  total_delay (tr1 ++ tr2) = total_delay tr1 + total_delay tr2.
Proof.
  unfold total_delay. rewrite timers_app.
  induction (timers tr1) as [|ms l IH]; simpl; [reflexivity | rewrite IH; lia].
Qed.

Lemma init_calls_app (tr1 tr2 : list Effect) :
  init_calls (tr1 ++ tr2) = (init_calls tr1 + init_calls tr2)%nat.
Proof. unfold init_calls. rewrite filter_app, length_app. reflexivity. Qed.

Lemma init_failures_app (tr1 tr2 : list Effect) :
  init_failures (tr1 ++ tr2) = (init_failures tr1 + init_failures tr2)%nat.
Proof. unfold init_failures. rewrite filter_app, length_app. reflexivity. Qed.

Lemma init_successes_app (tr1 tr2 : list Effect) :
  init_successes (tr1 ++ tr2) = (init_successes tr1 + init_successes tr2)%nat.
Proof. unfold init_successes. rewrite filter_app, length_app. reflexivity. Qed.

(** A line of [initializeGroq] is a failure line or a success line, never
    both. *)
Lemma init_calls_split (tr : list Effect) :
  init_calls tr = (init_failures tr + init_successes tr)%nat.
Proof.
  unfold init_calls, init_failures, init_successes.
  induction tr as [|e tr IH]; [reflexivity|].
  destruct e as [line|label detail|ms|cl req]; simpl.
  - destruct (String.eqb line _); simpl; lia.
  - destruct (String.eqb label _); simpl; lia.
  - exact IH.
  - exact IH.
Qed.

Lemma failed_rounds_counts (e : JsError) (rounds : nat) (from : Z) :
  init_failures (failed_rounds e from rounds) = rounds
  /\ init_successes (failed_rounds e from rounds) = 0%nat
  /\ provider_requests (failed_rounds e from rounds) = []
  /\ List.length (timers (failed_rounds e from rounds)) = rounds.
Proof.
  revert from. induction rounds as [|k IH]; intros from; [repeat split|].
  destruct (IH (from + 1)) as (Hf & Hs & Hp & Ht).
  unfold init_failures, init_successes in *. simpl.
  repeat split; try assumption; lia.
Qed.

Lemma failed_rounds_delay (e : JsError) (rounds : nat) (from : Z) :
  0 <= from ->
  from + Z.of_nat rounds <= 3 ->
  total_delay (failed_rounds e from rounds) <= 6000
  /\ List.Forall (fun ms => 1000 <= ms <= 3000) (timers (failed_rounds e from rounds)).
Proof.
  intros Hfrom Hcap.
  assert (Hcases : from = 0 \/ from = 1 \/ from = 2 \/ from = 3) by lia.
  destruct Hcases as [-> | [-> | [-> | ->]]];
    do 4 (destruct rounds as [|rounds];
          [cbn [failed_rounds timers total_delay List.fold_right];
           split; [lia | repeat constructor; lia] | ]);
    lia.
Qed.

(* ------------------------------------------------------------------ *)
(** ** The loop, case by case *)
(* ------------------------------------------------------------------ *)

Lemma configured_key_nonempty (w : World) (key : string) :
  configured_key w = Some key -> String.eqb key "" = false.
Proof.
  unfold configured_key. destruct (GROQ_API_KEY w) as [k|]; [|discriminate].
  destruct (String.eqb k "") eqn:Hk; [discriminate|].
  intros H. injection H as <-. exact Hk.
Qed.

(** What one call of the loop comes to: nothing when the guard is false;
    one successful call of [initializeGroq] when the world allows it; all
    the attempts left, failed, otherwise. *)
Lemma retry_cases (w : World) (s : State) :
  (may_attempt s = false /\ initializeGroqWithRetry w s = (s, Normal tt))
  \/ (may_attempt s = true
      /\ exists key : string,
           configured_key w = Some key
           /\ initializeGroqWithRetry w s =
                ({| groq := Some {| options := options_for key |};
                    initializationAttempts := initializationAttempts s;
                    trace := trace s ++ [ConsoleLog "Groq AI service initialized successfully"] |},
                 Normal tt))
  \/ (may_attempt s = true
      /\ exists e : JsError,
           init_failure w = Some e
           /\ initializeGroqWithRetry w s =
                (let rounds := Z.to_nat (MAX_INITIALIZATION_ATTEMPTS - initializationAttempts s) in
                 {| groq := None;
                    initializationAttempts := initializationAttempts s + Z.of_nat rounds;
                    trace := trace s ++ failed_rounds e (initializationAttempts s) rounds |},
                 Normal tt)).
Proof.
  destruct (may_attempt s) eqn:Hg; [right | left; split; [reflexivity | exact (retry_idle w s Hg)]].
  destruct (init_failure w) as [e|] eqn:Hf.
  - right. split; [reflexivity|]. exists e. split; [reflexivity|].
    apply may_attempt_true in Hg. destruct Hg as [Hg _].
    exact (retry_failure w e Hf _ s Hg eq_refl).
  - left. split; [reflexivity|]. unfold init_failure in Hf.
    destruct (configured_key w) as [key|] eqn:Hk; [|discriminate].
    exists key. split; [reflexivity|]. exact (retry_success w s key Hg Hk Hf).
Qed.

(** The retry pass of a POST handler is the loop, or nothing. *)
Lemma on_demand_retry_eq (w : World) (s : State) :
  on_demand_retry w s = fst (initializeGroqWithRetry w s).
Proof.
  unfold on_demand_retry. destruct (groq s) as [c|] eqn:Hg; [|reflexivity].
  rewrite retry_idle; [reflexivity|].
  unfold may_attempt. rewrite Hg. apply andb_false_r.
Qed.

(** What a call of the loop leaves behind. *)
Lemma retry_facts (w : World) (s : State) :
  let s' := fst (initializeGroqWithRetry w s) in
  may_attempt s' = false
  /\ (forall w' : World, initializeGroqWithRetry w' s' = (s', Normal tt))
  /\ initializationAttempts s <= initializationAttempts s'
  /\ initializationAttempts s' <= Z.max (initializationAttempts s) 3
  /\ (forall c : Groq, groq s = Some c -> s' = s)
  /\ exists tail : list Effect,
       trace s' = (trace s ++ tail)%list
       /\ (init_calls tail <= Z.to_nat (3 - initializationAttempts s))%nat
       /\ provider_requests tail = []
       /\ (0 <= initializationAttempts s -> total_delay tail <= 6000).
Proof.
  cbv zeta.
  assert (Hidle : may_attempt (fst (initializeGroqWithRetry w s)) = false).
  { destruct (retry_cases w s) as [[Hg ->] | [[Hg (key & _ & ->)] | [Hg (e & _ & ->)]]].
    - exact Hg.
    - unfold may_attempt. simpl. apply andb_false_r.
    - unfold may_attempt. cbn [fst groq initializationAttempts].
      apply may_attempt_true in Hg. destruct Hg as [_ Hlt].
      apply andb_false_iff. left. apply Z.ltb_ge.
      unfold MAX_INITIALIZATION_ATTEMPTS in *. lia. }
  split; [exact Hidle|].
  split; [intros w'; exact (retry_idle w' _ Hidle)|].
  destruct (retry_cases w s) as [[Hg ->] | [[Hg (key & _ & ->)] | [Hg (e & _ & ->)]]];
    cbn [fst groq initializationAttempts trace].
  - split; [lia|]. split; [lia|]. split; [reflexivity|].
    exists []. rewrite app_nil_r. split; [reflexivity|].
    split; [unfold init_calls; simpl; lia|]. split; [reflexivity|].
    intros _. unfold total_delay. simpl. lia.
  - apply may_attempt_true in Hg. destruct Hg as [Hnone Hlt].
    unfold MAX_INITIALIZATION_ATTEMPTS in Hlt.
    split; [lia|]. split; [lia|]. split; [intros c Hc; congruence|].
    eexists. split; [reflexivity|]. split; [|split; [reflexivity|]].
    + change (init_calls [ConsoleLog "Groq AI service initialized successfully"])
        with 1%nat. lia.
    + intros _. unfold total_delay. simpl. lia.
  - apply may_attempt_true in Hg. destruct Hg as [Hnone Hlt].
    unfold MAX_INITIALIZATION_ATTEMPTS in *.
    split; [lia|]. split; [lia|]. split; [intros c Hc; congruence|].
    eexists. split; [reflexivity|].
    destruct (failed_rounds_counts e (Z.to_nat (3 - initializationAttempts s))
                (initializationAttempts s)) as (Hf & Hs & Hp & _).
    split; [rewrite init_calls_split, Hf, Hs; lia|].
    split; [exact Hp|].
    intros Hpos. apply failed_rounds_delay; lia.
Qed.

(* ------------------------------------------------------------------ *)
(** ** The POST handlers, path by path *)
(* ------------------------------------------------------------------ *)

Lemma error_body_classified (fallback : string) (e : JsError) :
  String.eqb fallback "" = false -> error_body (classified fallback e).
Proof.
  intros Hfb. unfold error_body, classified, sent.
  destruct e as [[m|]]; cbn [message optional_includes of_optional_string].
  - exists "AI service error", (if String.eqb m "" then fallback else m).
    exists [ ("retryable", JBool (retryable_message m)) ].
    split; [|split; [reflexivity|]].
    + unfold js_or, retryable_message. simpl.
      destruct (includes m "timeout"), (includes m "rate limit"), (includes m "connection");
        destruct (String.eqb m ""); reflexivity.
    + destruct (String.eqb m "") eqn:Hm; assumption.
  - exists "AI service error", fallback, []. split; [|split; [reflexivity | exact Hfb]].
    reflexivity.
Qed.

Lemma truthy_content (completion : ChatCompletion) :
  truthy (first_choice_content completion) = true ->
  exists c : string,
    first_choice_content completion = JStr c /\ String.eqb c "" = false.
Proof.
  rewrite first_choice_content_eq.
  destruct (first_content completion) as [c|]; simpl; [|discriminate].
  intros H. exists c. split; [reflexivity|]. apply negb_true_iff. exact H.
Qed.

Lemma success_body_intro (key c : string) :
  String.eqb c "" = false -> success_body key (res_json (JObj [ (key, JStr c) ])).
Proof. intros Hc. exists c. repeat split. exact Hc. Qed.

Ltac rejected_400 :=
  left; eexists; split; [reflexivity|]; split; [reflexivity|];
  do 3 eexists; split; [reflexivity|]; split; reflexivity.

Ltac threw_early := right; left; eexists; reflexivity.

Lemma suggest_try_result (w : World) (body : JsVal) (s : State) :
  try_result "suggestion" s (suggest_try w body s).
Proof.
  unfold try_result, suggest_try. run.
  destruct (destructure_text (engine w) body) as [text|e]; run; [|threw_early].
  destruct (truthy text); run; [|rejected_400].
  destruct (get_length (engine w) text) as [len|e]; run; [|threw_early].
  destruct (GreaterThan (engine w) len 32000) as [[|]|e]; run;
    [rejected_400 | | threw_early].
  destruct (ToString (engine w) text) as [shown|e]; run; [|threw_early].
  unfold create_completion. run.
  destruct (groq s) as [cl|] eqn:Hc; run; [|threw_early].
  right. right. exists cl, (suggest_request (suggest_prompt shown)).
  split; [reflexivity|]. unfold emit. run. fold (log_to s (ProviderRequest cl (suggest_request (suggest_prompt shown)))).
  destruct (chat_completions_create w cl _) as [completion|error]; run.
  - destruct (truthy (first_choice_content completion)) eqn:Ht; run.
    + right. destruct (truthy_content completion Ht) as (c & -> & Hne).
      eexists. split; [reflexivity|]. split; [reflexivity|].
      apply success_body_intro. exact Hne.
    + left. eexists. reflexivity.
  - left. eexists. reflexivity.
Qed.

Lemma format_try_result (w : World) (body : JsVal) (s : State) :
  try_result "formattedText" s (format_try w body s).
Proof.
  unfold try_result, format_try. run.
  destruct (destructure_text (engine w) body) as [text|e]; run; [|threw_early].
  destruct (truthy text); run; [|rejected_400].
  destruct (get_length (engine w) text) as [len|e]; run; [|threw_early].
  destruct (GreaterThan (engine w) len 32000) as [[|]|e]; run;
    [rejected_400 | | threw_early].
  destruct (ToString (engine w) text) as [shown|e]; run; [|threw_early].
  unfold create_completion. run.
  destruct (groq s) as [cl|] eqn:Hc; run; [|threw_early].
  right. right. exists cl, (format_request (format_prompt shown)).
  split; [reflexivity|]. unfold emit. run. fold (log_to s (ProviderRequest cl (format_request (format_prompt shown)))).
  destruct (chat_completions_create w cl _) as [completion|error]; run.
  - destruct (truthy (first_choice_content completion)) eqn:Ht; run.
    + right. destruct (truthy_content completion Ht) as (c & -> & Hne).
      eexists. split; [reflexivity|]. split; [reflexivity|].
      apply success_body_intro. exact Hne.
    + left. eexists. reflexivity.
  - left. eexists. reflexivity.
Qed.

Lemma caught_answer (key label fallback : string) (e : JsError) (s s0 : State)
    (tail : list Effect) :
  String.eqb fallback "" = false ->
  String.eqb label "Failed to initialize Groq:" = false ->
  s = extend s0 tail ->
  init_calls tail = 0%nat ->
  timers tail = [] ->
  (List.length (provider_requests tail) <= 1)%nat ->
  answered key s0 (log_to s (ConsoleError label (message e))) (classified fallback e).
Proof.
  intros Hfb Hlabel -> Hcalls Htimers Hreq.
  exists (tail ++ [ConsoleError label (message e)])%list.
  split; [unfold extend, log_to; simpl; rewrite app_assoc; reflexivity|].
  split; [rewrite init_calls_app, Hcalls; unfold init_calls; simpl; rewrite Hlabel; reflexivity|].
  split; [rewrite timers_app, Htimers; reflexivity|].
  right. right. split; [|split].
  - destruct (classified_status fallback e); auto.
  - apply error_body_classified. exact Hfb.
  - rewrite provider_requests_app. simpl. rewrite app_nil_r. exact Hreq.
Qed.

Lemma extend_nil (s : State) : s = extend s [].
Proof. destruct s. unfold extend. simpl. rewrite app_nil_r. reflexivity. Qed.

Lemma finish_try_result (key label fallback : string) (s : State)
    (res : State * Result Response) :
  String.eqb fallback "" = false ->
  String.eqb label "Failed to initialize Groq:" = false ->
  try_result key s res ->
  exists (s' : State) (r : Response),
    finish label fallback res = (s', Normal r) /\ answered key s s' r.
Proof.
  intros Hfb Hlabel
    [(r & -> & Hst & Hbody) | [(e & ->) | (cl & req & Hc & [(e & ->) | (r & -> & Hst & Hbody)])]];
    cbn [finish]; do 2 eexists; (split; [reflexivity|]).
  - exists []. split; [apply extend_nil|]. split; [reflexivity|]. split; [reflexivity|].
    left. auto.
  - apply (caught_answer key label fallback e s s [] Hfb Hlabel (extend_nil s));
      [reflexivity | reflexivity | simpl; lia].
  - apply (caught_answer key label fallback e _ s [ProviderRequest cl req] Hfb Hlabel);
      [reflexivity | reflexivity | reflexivity | simpl; lia].
  - exists [ProviderRequest cl req]. split; [reflexivity|].
    split; [reflexivity|]. split; [reflexivity|].
    right. left. split; [exact Hst|]. split; [exact Hbody|]. eauto.
Qed.

(** Every path through a POST handler, at once. *)
Lemma post_api_suggest_paths (w : World) (body : JsVal) (s : State) :
  exists (s' : State) (r : Response),
    post_api_suggest w body s = (s', Normal r)
    /\ ((groq (on_demand_retry w s) = None
         /\ s' = on_demand_retry w s /\ r = unavailable_response)
        \/ ((exists c : Groq, groq (on_demand_retry w s) = Some c)
            /\ answered "suggestion" (on_demand_retry w s) s' r)).
Proof.
  rewrite post_api_suggest_entry.
  destruct (groq (on_demand_retry w s)) as [c|] eqn:Hc.
  - destruct (finish_try_result "suggestion" "Error generating suggestion:"
                "Failed to generate suggestion" (on_demand_retry w s)
                (suggest_try w body (on_demand_retry w s)) eq_refl eq_refl
                (suggest_try_result w body _)) as (s' & r & Heq & Hans).
    exists s', r. split; [|right; split; [eauto | exact Hans]].
    rewrite <- Heq. unfold try_catch, finish.
    destruct (suggest_try w body (on_demand_retry w s)) as [s2 [r2|e2]]; reflexivity.
  - do 2 eexists. split; [reflexivity|]. left. auto.
Qed.

Lemma post_api_format_paths (w : World) (body : JsVal) (s : State) :
  exists (s' : State) (r : Response),
    post_api_format w body s = (s', Normal r)
    /\ ((groq (on_demand_retry w s) = None
         /\ s' = on_demand_retry w s /\ r = unavailable_response)
        \/ ((exists c : Groq, groq (on_demand_retry w s) = Some c)
            /\ answered "formattedText" (on_demand_retry w s) s' r)).
Proof.
  rewrite post_api_format_entry.
  destruct (groq (on_demand_retry w s)) as [c|] eqn:Hc.
  - destruct (finish_try_result "formattedText" "Error formatting text:"
                "Failed to format text" (on_demand_retry w s)
                (format_try w body (on_demand_retry w s)) eq_refl eq_refl
                (format_try_result w body _)) as (s' & r & Heq & Hans).
    exists s', r. split; [|right; split; [eauto | exact Hans]].
    rewrite <- Heq. unfold try_catch, finish.
    destruct (format_try w body (on_demand_retry w s)) as [s2 [r2|e2]]; reflexivity.
  - do 2 eexists. split; [reflexivity|]. left. auto.
Qed.


(* ------------------------------------------------------------------ *)
(** ** Settled states *)
(* ------------------------------------------------------------------ *)

Lemma settled_iff (s : State) :
  may_attempt s = false <->
  (exists c : Groq, groq s = Some c) \/ 3 <= initializationAttempts s.
Proof.
  unfold may_attempt. rewrite andb_false_iff, Z.ltb_ge.
  unfold MAX_INITIALIZATION_ATTEMPTS. destruct (groq s) as [c|].
  - split; [intros _; left; eauto | intros _; right; reflexivity].
  - split; [intros [H|H]; [right; exact H | discriminate]
           | intros [[c Hc]|H]; [discriminate | left; exact H]].
Qed.

Lemma on_demand_retry_settled (w : World) (s : State) :
  may_attempt s = false -> on_demand_retry w s = s.
Proof. intros H. rewrite on_demand_retry_eq, (retry_idle w s H). reflexivity. Qed.

Lemma on_demand_retry_settles (w : World) (s : State) :
  may_attempt (on_demand_retry w s) = false.
Proof. rewrite on_demand_retry_eq. exact (proj1 (retry_facts w s)). Qed.

(** What a request leaves of the two variables and of the lines that
    count, given what the retry pass left. *)
Lemma answered_keeps (key : string) (s s' : State) (r : Response) :
  answered key s s' r ->
  groq s' = groq s
  /\ initializationAttempts s' = initializationAttempts s
  /\ init_calls (trace s') = init_calls (trace s)
  /\ timers (trace s') = timers (trace s)
  /\ may_attempt s' = may_attempt s.
Proof.
  intros (tail & -> & Hcalls & Htimers & _). unfold extend, may_attempt.
  cbn [groq initializationAttempts trace].
  rewrite init_calls_app, timers_app, Hcalls, Htimers, app_nil_r.
  repeat split; lia.
Qed.

(** One request: the two variables and the lines that count are as the
    retry pass left them. *)
Lemma route_after_retry (w : World) (r : Request) (s : State) :
  let s1 := match r with GET_health => s | _ => on_demand_retry w s end in
  let s' := fst (route w r s) in
  groq s' = groq s1
  /\ initializationAttempts s' = initializationAttempts s1
  /\ init_calls (trace s') = init_calls (trace s1)
  /\ timers (trace s') = timers (trace s1)
  /\ may_attempt s' = may_attempt s1.
Proof.
  cbv zeta. destruct r as [|body|body]; cbn [route].
  - rewrite get_health_eq. repeat split.
  - destruct (post_api_suggest_paths w body s)
      as (s' & resp & -> & [(_ & -> & _) | (_ & Hans)]); cbn [fst].
    + repeat split.
    + exact (answered_keeps _ _ _ _ Hans).
  - destruct (post_api_format_paths w body s)
      as (s' & resp & -> & [(_ & -> & _) | (_ & Hans)]); cbn [fst].
    + repeat split.
    + exact (answered_keeps _ _ _ _ Hans).
Qed.

Lemma route_settled (w : World) (r : Request) (s : State) :
  may_attempt s = false ->
  let s' := fst (route w r s) in
  groq s' = groq s
  /\ initializationAttempts s' = initializationAttempts s
  /\ init_calls (trace s') = init_calls (trace s)
  /\ timers (trace s') = timers (trace s)
  /\ may_attempt s' = false.
Proof.
  intros Hs. pose proof (route_after_retry w r s) as H. cbv zeta in *.
  rewrite (on_demand_retry_settled w s Hs) in H.
  destruct r; rewrite <- Hs; exact H.
Qed.

Lemma serve_all_settled (s : State) (reqs : list (World * Request)) :
  may_attempt s = false ->
  let s' := fst (serve_all reqs s) in
  groq s' = groq s
  /\ initializationAttempts s' = initializationAttempts s
  /\ init_calls (trace s') = init_calls (trace s)
  /\ timers (trace s') = timers (trace s).
Proof.
  revert s. induction reqs as [|[w r] rest IH]; intros s Hs; cbv zeta.
  - repeat split.
  - destruct (route_settled w r s Hs) as (Hg & Ha & Hc & Ht & Hs1).
    specialize (IH (fst (route w r s)) Hs1). cbv zeta in IH.
    simpl. destruct (route w r s) as [s1 o]. cbn [fst] in *.
    destruct (serve_all rest s1) as [s2 os]. cbn [fst] in *.
    destruct IH as (Hg' & Ha' & Hc' & Ht').
    repeat split; congruence.
Qed.


Lemma error_body_unavailable : error_body unavailable_response.
Proof. do 3 eexists. split; [reflexivity|]. split; reflexivity. Qed.

(** The retry pass only adds to the trace, and nothing for the provider. *)
Lemma on_demand_retry_trace (w : World) (s : State) :
  exists tail : list Effect,
    trace (on_demand_retry w s) = (trace s ++ tail)%list
    /\ provider_requests tail = [].
Proof.
  rewrite on_demand_retry_eq.
  destruct (retry_facts w s) as (_ & _ & _ & _ & _ & tail & Htr & _ & Hp & _).
  exists tail. split; assumption.
Qed.

Lemma Substring_wrapped (sub before m after : string) :
  Substring sub m -> Substring sub (before ++ m ++ after).
Proof.
  intros (b & a & ->). exists (before ++ b), (a ++ after).
  assert (Hassoc : forall x y z : string, (x ++ y) ++ z = x ++ (y ++ z)).
  { induction x as [|ch x IH]; intros y z; simpl; [reflexivity | rewrite IH; reflexivity]. }
  rewrite !Hassoc. reflexivity.
Qed.

Lemma truthy_false_iff (v : JsVal) :
  truthy v = false <->
  v = JUndefined \/ v = JNull \/ v = JBool false \/ v = JNum 0 \/ v = JStr "".
Proof.
  split.
  - destruct v as [| |b|n|t|l|props]; simpl; intros H; try discriminate; auto.
    + destruct b; [discriminate | auto].
    + apply negb_false_iff, Z.eqb_eq in H. subst n. auto 6.
    + apply negb_false_iff, String.eqb_eq in H. subst t. auto 6.
  - intros [-> | [-> | [-> | [-> | ->]]]]; reflexivity.
Qed.

Lemma suggest_catch_eq (error : JsError) (s : State) :
  suggest_catch error s =
    (log_to s (ConsoleError "Error generating suggestion:" (message error)),
     Normal (classified "Failed to generate suggestion" error)).
Proof. reflexivity. Qed.

Lemma format_catch_eq (error : JsError) (s : State) :
  format_catch error s =
    (log_to s (ConsoleError "Error formatting text:" (message error)),
     Normal (classified "Failed to format text" error)).
Proof. reflexivity. Qed.

(* ------------------------------------------------------------------ *)
(** ** Overlapping calls of the loop *)
(* ------------------------------------------------------------------ *)

Module OverlapFacts.
Import Interleaved.

(** What entering the loop keeps. *)
Lemma enter_keeps (w : World) (s : State) :
  (forall cl : Groq, groq s = Some cl -> groq (fst (enter w s)) = Some cl)
  /\ initializationAttempts (fst (enter w s)) = initializationAttempts s
  /\ (init_successes (trace (fst (enter w s))) + absent (fst (enter w s))
      = init_successes (trace s) + absent s)%nat.
Proof.
  unfold enter. destruct (may_attempt s) eqn:Hg; [|repeat split; auto].
  apply may_attempt_true in Hg. destruct Hg as [Hnone _].
  destruct (init_failure w) as [e|] eqn:Hf.
  - rewrite (initializeGroq_failure w s e Hf). cbn [fst].
    unfold absent, log_to. cbn [groq initializationAttempts trace].
    rewrite init_successes_app. repeat split; auto.
  - unfold init_failure in Hf. destruct (configured_key w) as [key|] eqn:Hk; [|discriminate].
    rewrite (initializeGroq_success w s key Hk Hf). cbn [fst].
    unfold absent. cbn [groq initializationAttempts trace].
    rewrite init_successes_app, Hnone.
    split; [intros cl Hcl; discriminate|]. split; [reflexivity|].
    change (init_successes [ConsoleLog "Groq AI service initialized successfully"])
      with 1%nat. lia.
Qed.

Lemma step_keeps (c c' : Config) :
  step c c' ->
  (forall cl : Groq, groq (fst c) = Some cl -> groq (fst c') = Some cl)
  /\ initializationAttempts (fst c) <= initializationAttempts (fst c')
  /\ (init_successes (trace (fst c')) + absent (fst c')
      = init_successes (trace (fst c)) + absent (fst c))%nat.
Proof.
  intros [w s ps | w s before after p]; cbn [fst].
  - destruct (enter_keeps w s) as (Hg & Ha & Hs). split; [exact Hg|]. split; [lia | exact Hs].
  - destruct p as [[|]|]; cbn [resume fst].
    + repeat split; auto. lia.
    + change (fst (back_off s))
        with {| groq := groq s;
                initializationAttempts := initializationAttempts s + 1;
                trace := (trace s
                          ++ [SetTimeout (1000 * (initializationAttempts s + 1))])%list |}.
      unfold absent. cbn [groq initializationAttempts trace].
      rewrite init_successes_app.
      change (init_successes [SetTimeout (1000 * (initializationAttempts s + 1))])
        with 0%nat.
      split; [auto|]. split; lia.
    + destruct (enter_keeps w s) as (Hg & Ha & Hs). split; [exact Hg|]. split; [lia | exact Hs].
Qed.

Lemma steps_keep (c c' : Config) :
  steps c c' ->
  (forall cl : Groq, groq (fst c) = Some cl -> groq (fst c') = Some cl)
  /\ initializationAttempts (fst c) <= initializationAttempts (fst c')
  /\ (init_successes (trace (fst c')) + absent (fst c')
      = init_successes (trace (fst c)) + absent (fst c))%nat.
Proof.
  induction 1 as [c | c1 c2 c3 Hstep _ IH].
  - repeat split; auto. lia.
  - destruct (step_keeps c1 c2 Hstep) as (Hg & Ha & Hs).
    destruct IH as (Hg' & Ha' & Hs').
    split; [intros cl Hcl; apply Hg', Hg, Hcl|]. split; [lia | congruence].
Qed.

(** An uninterrupted run ends in one state only. *)
Lemma alone_functional (w : World) (s : State) (p : option Pending) (s1 s2 : State) :
  alone w s p s1 -> alone w s p s2 -> s1 = s2.
Proof.
  intros H1. revert s2.
  induction H1 as [s | s sa s' p pa Hres _ IH]; intros s2 H2.
  - inversion H2. reflexivity.
  - inversion H2 as [| ? sb ? ? pb Hres' Hrest]; subst.
    rewrite Hres in Hres'. injection Hres' as <- <-. exact (IH s2 Hrest).
Qed.

End OverlapFacts.

(* ------------------------------------------------------------------ *)
(** ** What overlapping calls keep *)
(* ------------------------------------------------------------------ *)

Module OverlapInvariants.
Import Interleaved.

(** Entering the loop: nothing, a success, or a failure. *)
Lemma enter_cases (w : World) (s : State) :
  (may_attempt s = false /\ enter w s = (s, None))
  \/ (may_attempt s = true
      /\ exists key : string,
           configured_key w = Some key
           /\ enter w s =
                ({| groq := Some {| options := options_for key |};
                    initializationAttempts := initializationAttempts s;
                    trace := trace s ++ [ConsoleLog "Groq AI service initialized successfully"] |},
                 Some (AwaitingInit true)))
  \/ (may_attempt s = true
      /\ exists e : JsError,
           enter w s =
             (log_to s (ConsoleError "Failed to initialize Groq:" (message e)),
              Some (AwaitingInit false))).
Proof.
  unfold enter. destruct (may_attempt s) eqn:Hg; [right | left; auto].
  destruct (init_failure w) as [e|] eqn:Hf.
  - right. split; [reflexivity|]. exists e.
    rewrite (initializeGroq_failure w s e Hf). reflexivity.
  - left. split; [reflexivity|]. unfold init_failure in Hf.
    destruct (configured_key w) as [key|] eqn:Hk; [|discriminate].
    exists key. split; [reflexivity|].
    rewrite (initializeGroq_success w s key Hk Hf). reflexivity.
Qed.

Lemma back_off_state (s : State) :
  fst (back_off s) =
    {| groq := groq s;
       initializationAttempts := initializationAttempts s + 1;
       trace := (trace s ++ [SetTimeout (1000 * (initializationAttempts s + 1))])%list |}.
Proof. reflexivity. Qed.

Lemma may_attempt_groq (s : State) (cl : Groq) : groq s = Some cl -> may_attempt s = false.
Proof. intros H. unfold may_attempt. rewrite H. apply andb_false_r. Qed.

(** *** Settled stays settled *)

Lemma step_keeps_settled (c c' : Config) :
  step c c' ->
  may_attempt (fst c) = false ->
  groq (fst c') = groq (fst c)
  /\ init_calls (trace (fst c')) = init_calls (trace (fst c))
  /\ may_attempt (fst c') = false.
Proof.
  assert (Henter : forall w s, may_attempt s = false -> enter w s = (s, None))
    by (intros w s H; unfold enter; rewrite H; reflexivity).
  intros [w s ps | w s before after p] Hs; cbn [fst] in *.
  - rewrite (Henter w s Hs). repeat split; assumption.
  - destruct p as [[|]|]; cbn [resume fst].
    + repeat split; assumption.
    + rewrite back_off_state. cbn [groq trace]. rewrite init_calls_app.
      split; [reflexivity|]. split; [unfold init_calls; simpl; lia|].
      apply settled_iff in Hs. apply settled_iff. cbn [groq initializationAttempts].
      destruct Hs as [H|H]; [left; exact H | right; lia].
    + rewrite (Henter w s Hs). repeat split; assumption.
Qed.

Lemma steps_keep_settled (c c' : Config) :
  steps c c' ->
  may_attempt (fst c) = false ->
  groq (fst c') = groq (fst c)
  /\ init_calls (trace (fst c')) = init_calls (trace (fst c))
  /\ may_attempt (fst c') = false.
Proof.
  induction 1 as [c | c1 c2 c3 Hstep _ IH]; intros Hs.
  - repeat split; auto.
  - destruct (step_keeps_settled c1 c2 Hstep Hs) as (Hg & Hc & Hs2).
    destruct (IH Hs2) as (Hg' & Hc' & Hs3).
    repeat split; congruence.
Qed.

(** *** Until a call is left, the process is settled or a call goes on *)

Lemma In_middle {A : Type} (x y : A) (before after : list A) :
  List.In x (before ++ y :: after)%list -> x = y \/ List.In x (before ++ after)%list.
Proof.
  rewrite !in_app_iff. simpl. intros [H | [H | H]]; auto.
Qed.

Lemma In_replaced {A : Type} (x y z : A) (before after : list A) :
  List.In x (before ++ y :: after)%list ->
  x <> y ->
  List.In x (before ++ z :: after)%list.
Proof.
  rewrite !in_app_iff. simpl. intros [H | [H | H]] Hne; auto. congruence.
Qed.

Lemma started_running (w0 : World) : running_or_settled (started w0).
Proof.
  unfold running_or_settled, started.
  destruct (enter_cases w0 initial_state) as [[Hg _] | [[_ (key & _ & ->)] | [_ (e & ->)]]];
    cbn [fst snd suspend].
  - discriminate Hg.
  - split; [left; eapply may_attempt_groq; reflexivity | intros _; eexists; reflexivity].
  - split.
    + right. exists (AwaitingInit false). split; [left; reflexivity | discriminate].
    + intros [H | []]. discriminate H.
Qed.

Lemma step_keeps_running (c c' : Config) :
  step c c' -> running_or_settled c -> running_or_settled c'.
Proof.
  unfold running_or_settled.
  intros [w s ps | w s before after p] [Hlive Hhonest]; cbn [fst snd] in *.
  - destruct (enter_cases w s) as [[Hg ->] | [[_ (key & _ & ->)] | [_ (e & ->)]]];
      cbn [fst snd suspend].
    + split; assumption.
    + split; [left; eapply may_attempt_groq; reflexivity | intros _; eexists; reflexivity].
    + split.
      * right. exists (AwaitingInit false). split; [left; reflexivity | discriminate].
      * intros [H | H]; [discriminate H | exact (Hhonest H)].
  - assert (Hrest : List.In (AwaitingInit true) (before ++ after)%list ->
                    exists cl : Groq, groq s = Some cl).
    { intros H. apply Hhonest. apply in_app_iff in H. apply in_app_iff.
      destruct H; [left | right; right]; assumption. }
    destruct p as [[|]|]; cbn [resume fst snd suspend].
    + assert (Hcl : exists cl : Groq, groq s = Some cl)
        by (apply Hhonest, in_app_iff; right; left; reflexivity).
      destruct Hcl as [cl Hcl].
      split; [left; exact (may_attempt_groq s cl Hcl) | exact Hrest].
    + split.
      * right. exists AwaitingTimer.
        split; [apply in_app_iff; right; left; reflexivity | discriminate].
      * intros H. apply In_middle in H. destruct H as [H | H]; [discriminate H|].
        rewrite back_off_state. exact (Hrest H).
    + destruct (enter_cases w s) as [[Hg ->] | [[_ (key & _ & ->)] | [_ (e & ->)]]];
        cbn [fst snd suspend].
      * split; [left; exact Hg | exact Hrest].
      * split; [left; eapply may_attempt_groq; reflexivity | intros _; eexists; reflexivity].
      * split.
        -- right. exists (AwaitingInit false).
           split; [apply in_app_iff; right; left; reflexivity | discriminate].
        -- intros H. apply In_middle in H. destruct H as [H | H]; [discriminate H|].
           exact (Hrest H).
Qed.

Lemma steps_keep_running (c c' : Config) :
  steps c c' -> running_or_settled c -> running_or_settled c'.
Proof.
  induction 1 as [c | c1 c2 c3 Hstep _ IH]; intros H; [exact H|].
  exact (IH (step_keeps_running c1 c2 Hstep H)).
Qed.

(** *** The books balance *)

Lemma uncounted_middle (p : Pending) (before after : list Pending) :
  uncounted_failures (before ++ p :: after)
  = (uncounted_failures (before ++ after) + if just_failed p then 1 else 0)%nat.
Proof.
  unfold uncounted_failures. rewrite !filter_app, !length_app. simpl.
  destruct (just_failed p); simpl; lia.
Qed.

Lemma accounted_start : accounted (initial_state, []).
Proof.
  unfold accounted. simpl. repeat split; try lia; discriminate.
Qed.

(** What one guard check and what follows it does to the books; [ps] are
    the other suspended calls. *)
Lemma enter_accounted (w : World) (s : State) (before after : list Pending) :
  accounted (s, (before ++ after)%list) ->
  accounted (fst (enter w s),
             (before ++ suspend (snd (enter w s)) after)%list).
Proof.
  unfold accounted. cbn [fst snd]. intros (Hpos & Hfail & Hsucc & Hclient).
  destruct (enter_cases w s) as [[Hg ->] | [[Hg (key & Hk & ->)] | [Hg (e & ->)]]];
    cbn [fst snd suspend groq initializationAttempts trace log_to].
  - repeat split; try assumption; apply Hclient; assumption.
  - apply may_attempt_true in Hg. destruct Hg as [Hnone _].
    unfold absent in *. rewrite Hnone in Hsucc. cbn [groq].
    rewrite init_failures_app, init_successes_app, uncounted_middle.
    change (init_failures [ConsoleLog "Groq AI service initialized successfully"]) with 0%nat.
    change (init_successes [ConsoleLog "Groq AI service initialized successfully"]) with 1%nat.
    cbn [just_failed].
    split; [exact Hpos|]. split; [lia|]. split; [lia|].
    intros cl Hcl. injection Hcl as <-. split; [reflexivity|].
    exact (configured_key_nonempty w key Hk).
  - rewrite init_failures_app, init_successes_app, uncounted_middle.
    change (init_failures [ConsoleError "Failed to initialize Groq:" (message e)]) with 1%nat.
    change (init_successes [ConsoleError "Failed to initialize Groq:" (message e)]) with 0%nat.
    cbn [just_failed]. unfold absent, log_to in *. cbn [groq].
    split; [exact Hpos|]. split; [lia|]. split; [lia | exact Hclient].
Qed.

Lemma step_keeps_accounted (c c' : Config) :
  step c c' -> accounted c -> accounted c'.
Proof.
  intros [w s ps | w s before after p] Hacc.
  - exact (enter_accounted w s [] ps Hacc).
  - destruct p as [[|]|]; cbn [resume].
    + unfold accounted in *. cbn [fst snd suspend] in *.
      rewrite uncounted_middle in Hacc. cbn [just_failed] in Hacc.
      rewrite Nat.add_0_r in Hacc. exact Hacc.
    + unfold accounted in *. cbn [fst snd suspend] in *.
      rewrite back_off_state. cbn [groq initializationAttempts trace].
      rewrite uncounted_middle in *. cbn [just_failed] in *.
      destruct Hacc as (Hpos & Hfail & Hsucc & Hclient).
      rewrite init_failures_app, init_successes_app.
      change (init_failures [SetTimeout (1000 * (initializationAttempts s + 1))]) with 0%nat.
      change (init_successes [SetTimeout (1000 * (initializationAttempts s + 1))]) with 0%nat.
      unfold absent in *. cbn [groq].
      split; [lia|]. split; [lia|]. split; [lia | exact Hclient].
    + apply enter_accounted.
      unfold accounted in *. cbn [fst snd] in *.
      rewrite uncounted_middle in Hacc. cbn [just_failed] in Hacc.
      rewrite Nat.add_0_r in Hacc. exact Hacc.
Qed.

Lemma steps_keep_accounted (c c' : Config) :
  steps c c' -> accounted c -> accounted c'.
Proof.
  induction 1 as [c | c1 c2 c3 Hstep _ IH]; intros H; [exact H|].
  exact (IH (step_keeps_accounted c1 c2 Hstep H)).
Qed.

Lemma uncounted_le (ps : list Pending) : (uncounted_failures ps <= List.length ps)%nat.
Proof. unfold uncounted_failures. apply filter_length_le. Qed.

(** *** Past the cap *)

(** In this step semantics two calls that both check the guard at counter
    2, before either has incremented it, take the counter to 4, and the
    second of them awaits 4000 ms. *)
Lemma overlapping_calls_pass_the_cap :
  exists c : Config,
    steps ({| groq := None; initializationAttempts := 2; trace := [] |}, []) c
    /\ snd c = [AwaitingTimer; AwaitingTimer]
    /\ initializationAttempts (fst c) = 4
    /\ timers (trace (fst c)) = [3000; 4000].
Proof.
  eexists. split.
  - eapply steps_more; [exact (step_call Samples.no_key _ [])|].
    eapply steps_more; [exact (step_call Samples.no_key _ _)|].
    eapply steps_more;
      [exact (step_resume Samples.no_key _ [] [AwaitingInit false] (AwaitingInit false))|].
    eapply steps_more;
      [exact (step_resume Samples.no_key _ [AwaitingTimer] [] (AwaitingInit false))|].
    apply steps_done.
  - repeat split.
Qed.

End OverlapInvariants.

(* ================================================================== *)
(** * Part III.  The claims *)
(* ================================================================== *)

(* ------------------------------------------------------------------ *)
(** ** Client lifecycle *)
(* ------------------------------------------------------------------ *)

(** C8.  [initializeGroq] never lets an exception escape: it always
    returns a boolean.  When the API key is absent from the environment
    (unset, or the empty string) it logs the cause on the console and
    returns [false], the state otherwise untouched; the same holds when the
    SDK constructor throws.  When the key is present and the constructor
    succeeds, it builds a client with the fixed timeout of 30000 ms (30
    seconds), stores it as the shared handle, and returns [true]. *)
Theorem initializeGroq_contract (w : World) (s : State) :
  (exists ok : bool, snd (initializeGroq w s) = Normal ok)
  /\ (GROQ_API_KEY w = None \/ GROQ_API_KEY w = Some "" ->
      initializeGroq w s =
        (log_to s (ConsoleError "Failed to initialize Groq:"
                     (Some "GROQ_API_KEY is not set in environment variables")),
         Normal false))
  /\ (forall key : string,
        configured_key w = Some key ->
        forall e : JsError,
          Groq_constructor_throws w {| apiKey := key; timeout := 30 * 1000 |} = Some e ->
          initializeGroq w s =
            (log_to s (ConsoleError "Failed to initialize Groq:" (message e)),
             Normal false))
  /\ (forall key : string,
        configured_key w = Some key ->
        Groq_constructor_throws w {| apiKey := key; timeout := 30 * 1000 |} = None ->
        initializeGroq w s =
          ({| groq := Some {| options := {| apiKey := key; timeout := 30 * 1000 |} |};
              initializationAttempts := initializationAttempts s;
              trace := trace s ++ [ConsoleLog "Groq AI service initialized successfully"] |},
           Normal true)).
Proof.
  split; [apply initializeGroq_returns|].
  split; [|split].
  - intros Habsent. apply configured_key_None in Habsent.
    apply (initializeGroq_failure w s (Error "GROQ_API_KEY is not set in environment variables")).
    unfold init_failure. rewrite Habsent. reflexivity.
  - intros key Hk e He.
    apply initializeGroq_failure. unfold init_failure. rewrite Hk. exact He.
  - intros key Hk Hc. exact (initializeGroq_success w s key Hk Hc).
Qed.

Lemma initializeGroq_contract_witness :
  initializeGroq Samples.no_key initial_state =
    ({| groq := None;
        initializationAttempts := 0;
        trace := [ConsoleError "Failed to initialize Groq:"
                    (Some "GROQ_API_KEY is not set in environment variables")] |},
     Normal false)
  /\ initializeGroq Samples.healthy initial_state =
       ({| groq := Some Samples.client;
           initializationAttempts := 0;
           trace := [ConsoleLog "Groq AI service initialized successfully"] |},
        Normal true).
Proof.
  split.
  - apply (proj1 (proj2 (initializeGroq_contract Samples.no_key initial_state))).
    left. reflexivity.
  - apply (proj2 (proj2 (proj2 (initializeGroq_contract Samples.healthy initial_state)))
             "gsk_test"); reflexivity.
Defined.

(** C4.  [initializeGroqWithRetry] loops while no client exists and the
    counter is below 3.  Outside that guard it returns at once, silently:
    same state, nothing logged, no timer.  Inside, a turn calls
    [initializeGroq]; if that returns [true] the loop stops there; if it
    returns [false] the counter is incremented, a timer of 1000 ms times
    the new count is awaited, and the loop goes on from that state.  In a
    process that starts from scratch where initialisation fails, this makes
    three calls, followed by waits of 1000, 2000 and 3000 ms, and leaves the
    handle absent with the counter at 3; the loop itself never throws. *)
Theorem initializeGroqWithRetry_loop (w : World) (s : State) :
  (may_attempt s = true <-> groq s = None /\ initializationAttempts s < 3)
  /\ (may_attempt s = false -> initializeGroqWithRetry w s = (s, Normal tt))
  /\ (may_attempt s = true ->
      forall s1 : State,
        (initializeGroq w s = (s1, Normal true) ->
         initializeGroqWithRetry w s = (s1, Normal tt))
        /\ (initializeGroq w s = (s1, Normal false) ->
            initializeGroqWithRetry w s =
              initializeGroqWithRetry w
                {| groq := groq s1;
                   initializationAttempts := initializationAttempts s1 + 1;
                   trace := trace s1
                            ++ [SetTimeout (1000 * (initializationAttempts s1 + 1))] |}))
  /\ (forall e : JsError,
        init_failure w = Some e ->
        initializeGroqWithRetry w initial_state =
          ({| groq := None;
              initializationAttempts := 3;
              trace := [ ConsoleError "Failed to initialize Groq:" (message e);
                         SetTimeout 1000;
                         ConsoleError "Failed to initialize Groq:" (message e);
                         SetTimeout 2000;
                         ConsoleError "Failed to initialize Groq:" (message e);
                         SetTimeout 3000 ] |},
           Normal tt))
  /\ snd (initializeGroqWithRetry w s) = Normal tt.
Proof.
  split; [exact (may_attempt_true s)|].
  split; [exact (retry_idle w s)|].
  split; [|split].
  - intros Hg s1. split; intros Hi; rewrite retry_loop_turn, Hg, Hi; reflexivity.
  - intros e Hf.
    rewrite (retry_failure w e Hf 3 initial_state); reflexivity.
  - apply retry_returns.
Qed.

Lemma initializeGroqWithRetry_loop_witness :
  initializeGroqWithRetry Samples.no_key initial_state =
    ({| groq := None;
        initializationAttempts := 3;
        trace := [ ConsoleError "Failed to initialize Groq:"
                     (Some "GROQ_API_KEY is not set in environment variables");
                   SetTimeout 1000;
                   ConsoleError "Failed to initialize Groq:"
                     (Some "GROQ_API_KEY is not set in environment variables");
                   SetTimeout 2000;
                   ConsoleError "Failed to initialize Groq:"
                     (Some "GROQ_API_KEY is not set in environment variables");
                   SetTimeout 3000 ] |},
     Normal tt)
  /\ initializeGroqWithRetry Samples.healthy Samples.given_up
     = (Samples.given_up, Normal tt)
  /\ initializeGroqWithRetry Samples.healthy initial_state
     = (fst (initializeGroq Samples.healthy initial_state), Normal tt).
Proof.
  split; [|split].
  - apply (proj1 (proj2 (proj2 (proj2
             (initializeGroqWithRetry_loop Samples.no_key initial_state))))
             (Error "GROQ_API_KEY is not set in environment variables")).
    reflexivity.
  - apply (proj1 (proj2 (initializeGroqWithRetry_loop Samples.healthy Samples.given_up))).
    reflexivity.
  - apply (proj1 (proj2 (proj2
             (initializeGroqWithRetry_loop Samples.healthy initial_state)))).
    + reflexivity.
    + reflexivity.
Defined.

(** C3.  Once the counter has reached 3 with the handle absent, a call of
    [initializeGroqWithRetry] returns at once without calling
    [initializeGroq], in whatever world it is made (also one where the key
    is configured by now): the state is returned as it was.  Nothing in the
    server resets the counter, so for any sequence of health, suggest and
    format requests served from such a state, the state after the whole
    sequence is the state before it (handle absent, same counter, no call
    of [initializeGroq] on the trace), and every suggest or format request
    is answered 503, AI service unavailable.  The same holds when calls of
    the loop are interleaved at their awaits, whatever calls were already
    suspended: the handle stays absent, the counter stays at 3 or above,
    and [initializeGroq] is not called again. *)
Theorem attempt_cap_is_permanent (s : State) :
  groq s = None ->
  3 <= initializationAttempts s ->
  (forall w : World, initializeGroqWithRetry w s = (s, Normal tt))
  /\ (forall reqs : list (World * Request),
        fst (serve_all reqs s) = s
        /\ init_calls (trace (fst (serve_all reqs s))) = init_calls (trace s)
        /\ Forall2 refused reqs (snd (serve_all reqs s)))
  /\ (forall (pending : list Interleaved.Pending) (c : Interleaved.Config),
        Interleaved.steps (s, pending) c ->
        groq (fst c) = None
        /\ 3 <= initializationAttempts (fst c)
        /\ init_calls (trace (fst c)) = init_calls (trace s))
  /\ unavailable_response
     = {| status := 503;
          json := JObj [ ("error", JStr "AI service unavailable");
                         ("message", JStr "The AI service is not properly initialized. Please try again later.") ] |}.
Proof.
  intros Hg Hcap.
  assert (Hx : exhausted s) by (split; assumption).
  split; [intros w; apply retry_idle, exhausted_idle, Hx|].
  split; [|split; [|reflexivity]].
  - intros reqs. destruct (serve_all_exhausted s Hx reqs) as [Hs Hr].
    split; [exact Hs|]. split; [rewrite Hs; reflexivity | exact Hr].
  - intros pending c Hsteps.
    destruct (InterleavedFacts.steps_keep_exhausted (s, pending) c Hsteps Hx)
      as ([Hg' Hcap'] & _ & Hcalls).
    split; [exact Hg'|]. split; [exact Hcap' | exact Hcalls].
Qed.

Lemma attempt_cap_is_permanent_witness :
  boot Samples.no_key = {| groq := None;
                           initializationAttempts := 3;
                           trace := trace (boot Samples.no_key) |}
  /\ initializeGroqWithRetry Samples.healthy (boot Samples.no_key)
     = (boot Samples.no_key, Normal tt)
  /\ serve_all [ (Samples.healthy, POST_api_suggest (Samples.body_of (JStr "helo wrld")));
                 (Samples.healthy, POST_api_format (Samples.body_of (JStr "helo wrld"))) ]
       (boot Samples.no_key)
     = (boot Samples.no_key, [ Normal unavailable_response; Normal unavailable_response ]).
Proof.
  split; [reflexivity|].
  assert (Hg : groq (boot Samples.no_key) = None) by reflexivity.
  assert (Hcap : 3 <= initializationAttempts (boot Samples.no_key))
    by (vm_compute; discriminate).
  split.
  - apply (proj1 (attempt_cap_is_permanent (boot Samples.no_key) Hg Hcap)).
  - reflexivity.
Defined.

(* ------------------------------------------------------------------ *)
(** ** Endpoints *)
(* ------------------------------------------------------------------ *)

(** C6.  [GET /health] always answers, with status 200 and the body
    [{server: healthy, aiService, aiError, timestamp}], and leaves the
    state as it is.  [aiService] is [available] and [aiError] is [null]
    exactly when the client handle is present; when it is absent,
    [aiService] is [unavailable] and [aiError] is the string
    [AI service not initialized after N attempts], N the counter in
    decimal.  No state of the client makes the status differ from 200. *)
Theorem health_always_200 (w : World) (s : State) :
  exists (aiService : string) (aiError : JsVal),
    get_health w s =
      (s, Normal {| status := 200;
                    json := JObj [ ("server", JStr "healthy");
                                   ("aiService", JStr aiService);
                                   ("aiError", aiError);
                                   ("timestamp", JStr (Date_toISOString w)) ] |})
    /\ ((exists client, groq s = Some client)
        <-> aiService = "available" /\ aiError = JNull)
    /\ (groq s = None ->
        aiService = "unavailable"
        /\ aiError = JStr ("AI service not initialized after "
                           ++ NumberToString (initializationAttempts s)
                           ++ " attempts")).
Proof.
  rewrite get_health_eq. destruct (groq s) as [client|].
  - do 2 eexists. split; [reflexivity|]. split.
    + split; [intros _; split; reflexivity | intros _; eauto].
    + discriminate.
  - do 2 eexists. split; [reflexivity|]. split.
    + split; [intros [c Hc]; discriminate | intros [Ha _]; discriminate].
    + intros _. split; reflexivity.
Qed.

Lemma health_always_200_witness :
  (exists (aiService : string) (aiError : JsVal),
     get_health Samples.no_key Samples.given_up =
       (Samples.given_up,
        Normal {| status := 200;
                  json := JObj [ ("server", JStr "healthy");
                                 ("aiService", JStr aiService);
                                 ("aiError", aiError);
                                 ("timestamp", JStr "2024-05-01T12:00:00.000Z") ] |})
     /\ aiService = "unavailable"
     /\ aiError = JStr "AI service not initialized after 3 attempts")
  /\ get_health Samples.healthy Samples.ready =
       (Samples.ready,
        Normal {| status := 200;
                  json := JObj [ ("server", JStr "healthy");
                                 ("aiService", JStr "available");
                                 ("aiError", JNull);
                                 ("timestamp", JStr "2024-05-01T12:00:00.000Z") ] |}).
Proof.
  split.
  - destruct (health_always_200 Samples.no_key Samples.given_up)
      as (aiService & aiError & Heq & _ & Habsent).
    exists aiService, aiError. split; [exact Heq|].
    exact (Habsent eq_refl).
  - reflexivity.
Defined.

(** C2.  Both POST handlers check in a fixed order, and the first check
    that fails decides the answer.  (1) If the handle is still absent after
    the on-demand retry pass, the answer is 503, AI service unavailable,
    whatever the body.  (2) Otherwise, if [text] is missing or the empty
    string, the answer is 400, Missing text.  (3) Otherwise, if [text] is a
    string of more than 32000 code units, the answer is 400, Text too
    long; a string of exactly 32000 code units is accepted: the prompt
    built from it is submitted to the provider and the status is 200, 500
    or 503, never 400. *)
Theorem validation_order (w : World) (body : JsVal) (s : State) :
  (groq (on_demand_retry w s) = None ->
   let unavailable :=
     {| status := 503;
        json := JObj [ ("error", JStr "AI service unavailable");
                       ("message", JStr "The AI service is not properly initialized. Please try again later.") ] |} in
   post_api_suggest w body s = (on_demand_retry w s, Normal unavailable)
   /\ post_api_format w body s = (on_demand_retry w s, Normal unavailable))
  /\ (forall client : Groq,
        groq (on_demand_retry w s) = Some client ->
        (forall text : JsVal,
           destructure_text (engine w) body = Normal text ->
           text = JUndefined \/ text = JStr "" ->
           post_api_suggest w body s =
             (on_demand_retry w s,
              Normal {| status := 400;
                        json := JObj [ ("error", JStr "Missing text");
                                       ("message", JStr "Please provide text to get suggestions") ] |})
           /\ post_api_format w body s =
                (on_demand_retry w s,
                 Normal {| status := 400;
                           json := JObj [ ("error", JStr "Missing text");
                                          ("message", JStr "Please provide text to format") ] |}))
        /\ (forall t : string,
              destructure_text (engine w) body = Normal (JStr t) ->
              32000 < Z.of_nat (String.length t) ->
              let too_long :=
                {| status := 400;
                   json := JObj [ ("error", JStr "Text too long");
                                  ("message", JStr "The provided text exceeds the maximum length limit") ] |} in
              post_api_suggest w body s = (on_demand_retry w s, Normal too_long)
              /\ post_api_format w body s = (on_demand_retry w s, Normal too_long))
        /\ (forall t : string,
              destructure_text (engine w) body = Normal (JStr t) ->
              Z.of_nat (String.length t) = 32000 ->
              (exists (s' : State) (r : Response),
                 post_api_suggest w body s = (s', Normal r)
                 /\ (status r = 200 \/ status r = 500 \/ status r = 503)
                 /\ provider_requests (trace s')
                    = (provider_requests (trace (on_demand_retry w s))
                       ++ [suggest_request (suggest_prompt t)])%list)
              /\ (exists (s' : State) (r : Response),
                    post_api_format w body s = (s', Normal r)
                    /\ (status r = 200 \/ status r = 500 \/ status r = 503)
                    /\ provider_requests (trace s')
                       = (provider_requests (trace (on_demand_retry w s))
                          ++ [format_request (format_prompt t)])%list))).
Proof.
  split.
  - intros Hnone. cbv zeta.
    rewrite post_api_suggest_entry, post_api_format_entry, Hnone. split; reflexivity.
  - intros client Hc. split; [|split].
    + intros text Ht Hmissing.
      assert (Hf : truthy text = false) by (destruct Hmissing; subst text; reflexivity).
      rewrite post_api_suggest_entry, post_api_format_entry, Hc. unfold try_catch.
      rewrite (suggest_try_missing w body text _ Ht Hf),
              (format_try_missing w body text _ Ht Hf).
      split; reflexivity.
    + intros t Ht Hlong. cbv zeta.
      assert (Hf : truthy (JStr t) = true)
        by (destruct t; [simpl in Hlong; lia | reflexivity]).
      assert (Hg : GreaterThan (engine w) (JNum (Z.of_nat (String.length t))) 32000
                   = Normal true)
        by (simpl; f_equal; rewrite Z.gtb_ltb; apply Z.ltb_lt; exact Hlong).
      rewrite post_api_suggest_entry, post_api_format_entry, Hc. unfold try_catch.
      rewrite (suggest_try_too_long w body (JStr t) _ _ Ht Hf eq_refl Hg),
              (format_try_too_long w body (JStr t) _ _ Ht Hf eq_refl Hg).
      split; reflexivity.
    + intros t Ht Hlen.
      assert (Ha : accepted (engine w) body (JStr t) t)
        by (apply string_accepted; [exact Ht | lia]).
      split.
      * rewrite (post_api_suggest_accepted w body (JStr t) t client s Ha Hc).
        destruct (finish_answer "Error generating suggestion:" "Failed to generate suggestion"
                    "suggestion" "No suggestion generated"
                    (chat_completions_create w client (suggest_request (suggest_prompt t)))
                    (log_to (on_demand_retry w s)
                       (ProviderRequest client (suggest_request (suggest_prompt t)))))
          as (s' & r & Heq & Hst & Htr).
        exists s', r. split; [exact Heq|]. split; [exact Hst|].
        rewrite Htr. cbn [log_to trace]. rewrite provider_requests_app. reflexivity.
      * rewrite (post_api_format_accepted w body (JStr t) t client s Ha Hc).
        destruct (finish_answer "Error formatting text:" "Failed to format text"
                    "formattedText" "No formatted text generated"
                    (chat_completions_create w client (format_request (format_prompt t)))
                    (log_to (on_demand_retry w s)
                       (ProviderRequest client (format_request (format_prompt t)))))
          as (s' & r & Heq & Hst & Htr).
        exists s', r. split; [exact Heq|]. split; [exact Hst|].
        rewrite Htr. cbn [log_to trace]. rewrite provider_requests_app. reflexivity.
Qed.

Lemma validation_order_witness :
  (post_api_suggest Samples.healthy (JObj []) Samples.given_up
   = (Samples.given_up, Normal unavailable_response))
  /\ (post_api_format Samples.healthy (Samples.body_of (JStr "")) Samples.ready
      = (Samples.ready,
         Normal {| status := 400;
                   json := JObj [ ("error", JStr "Missing text");
                                  ("message", JStr "Please provide text to format") ] |}))
  /\ (post_api_suggest Samples.healthy
        (Samples.body_of (JStr (Samples.text_32001))) Samples.ready
      = (Samples.ready, Normal too_long_response))
  /\ (exists (s' : State) (r : Response),
        post_api_suggest Samples.healthy
          (Samples.body_of (JStr (Samples.text_32000))) Samples.ready
        = (s', Normal r)
        /\ (status r = 200 \/ status r = 500 \/ status r = 503)
        /\ provider_requests (trace s')
           = [suggest_request (suggest_prompt (Samples.text_32000))]).
Proof.
  assert (Hready : groq (on_demand_retry Samples.healthy Samples.ready) = Some Samples.client)
    by reflexivity.
  assert (Hover : 32000 < Z.of_nat (String.length Samples.text_32001))
    by (vm_compute; reflexivity).
  assert (Hat : Z.of_nat (String.length Samples.text_32000) = 32000)
    by (vm_compute; reflexivity).
  split; [|split; [|split]].
  - refine (proj1 (proj1 (validation_order Samples.healthy (JObj []) Samples.given_up) _)).
    reflexivity.
  - refine (proj2 (proj1 (proj2 (validation_order Samples.healthy (Samples.body_of (JStr ""))
                                   Samples.ready) Samples.client Hready)
                     (JStr "") eq_refl _)).
    right. reflexivity.
  - exact (proj1 (proj1 (proj2 (proj2 (validation_order Samples.healthy
                                         (Samples.body_of (JStr Samples.text_32001))
                                         Samples.ready) Samples.client Hready))
                    Samples.text_32001 eq_refl Hover)).
  - exact (proj1 (proj2 (proj2 (proj2 (validation_order Samples.healthy
                                         (Samples.body_of (JStr Samples.text_32000))
                                         Samples.ready) Samples.client Hready))
                    Samples.text_32000 eq_refl Hat)).
Defined.

(** C1.  On both POST endpoints, when the provider call throws an error
    with message [m], the answer is the body
    [{error: AI service error, message, retryable}] (the message being [m],
    or the endpoint's fallback text when [m] is empty), where [retryable]
    is a boolean that is [true] if and only if [m] contains [timeout],
    [rate limit] or [connection] as a substring, compared code unit by code
    unit (so case matters); the status is 503 when it is [true] and 500
    when it is [false]. *)
Theorem provider_error_classification
    (w : World) (body text : JsVal) (shown : string) (client : Groq) (s : State)
    (m : string) :
  groq (on_demand_retry w s) = Some client ->
  accepted (engine w) body text shown ->
  (chat_completions_create w client (suggest_request (suggest_prompt shown))
   = Rejected (Error m) ->
   exists (s' : State) (retryable : bool),
     post_api_suggest w body s =
       (s', Normal {| status := if retryable then 503 else 500;
                      json := JObj [ ("error", JStr "AI service error");
                                     ("message",
                                      JStr (if String.eqb m ""
                                            then "Failed to generate suggestion" else m));
                                     ("retryable", JBool retryable) ] |})
     /\ (retryable = true <->
         Substring "timeout" m \/ Substring "rate limit" m \/ Substring "connection" m))
  /\ (chat_completions_create w client (format_request (format_prompt shown))
      = Rejected (Error m) ->
      exists (s' : State) (retryable : bool),
        post_api_format w body s =
          (s', Normal {| status := if retryable then 503 else 500;
                         json := JObj [ ("error", JStr "AI service error");
                                        ("message",
                                         JStr (if String.eqb m ""
                                               then "Failed to format text" else m));
                                        ("retryable", JBool retryable) ] |})
        /\ (retryable = true <->
            Substring "timeout" m \/ Substring "rate limit" m \/ Substring "connection" m)).
Proof.
  intros Hc Ha. split; intros Hrejected.
  - rewrite (post_api_suggest_accepted w body text shown client s Ha Hc), Hrejected.
    cbn [answer_with finish]. rewrite classified_message.
    eexists. exists (retryable_message m). split; [reflexivity|].
    apply retryable_message_spec.
  - rewrite (post_api_format_accepted w body text shown client s Ha Hc), Hrejected.
    cbn [answer_with finish]. rewrite classified_message.
    eexists. exists (retryable_message m). split; [reflexivity|].
    apply retryable_message_spec.
Qed.

Lemma provider_error_classification_witness :
  (exists s' : State,
     post_api_suggest (Samples.with_provider (Rejected (Error "Request timeout after 30000ms")))
       Samples.helo Samples.ready
     = (s', Normal {| status := 503;
                      json := JObj [ ("error", JStr "AI service error");
                                     ("message", JStr "Request timeout after 30000ms");
                                     ("retryable", JBool true) ] |}))
  /\ (exists s' : State,
        post_api_format (Samples.with_provider (Rejected (Error "Timeout: Connection reset")))
          Samples.helo Samples.ready
        = (s', Normal {| status := 500;
                         json := JObj [ ("error", JStr "AI service error");
                                        ("message", JStr "Timeout: Connection reset");
                                        ("retryable", JBool false) ] |})).
Proof.
  split.
  - destruct (proj1 (provider_error_classification
                       (Samples.with_provider (Rejected (Error "Request timeout after 30000ms")))
                       Samples.helo (JStr "helo wrld") "helo wrld" Samples.client Samples.ready
                       "Request timeout after 30000ms" eq_refl (helo_accepted _)) eq_refl)
      as (s' & retryable & Heq & Hiff).
    assert (Hr : retryable = true)
      by (apply Hiff, retryable_message_spec; reflexivity).
    subst retryable. exists s'. exact Heq.
  - destruct (proj2 (provider_error_classification
                       (Samples.with_provider (Rejected (Error "Timeout: Connection reset")))
                       Samples.helo (JStr "helo wrld") "helo wrld" Samples.client Samples.ready
                       "Timeout: Connection reset" eq_refl (helo_accepted _)) eq_refl)
      as (s' & retryable & Heq & Hiff).
    assert (Hr : retryable = false).
    { destruct retryable; [|reflexivity].
      apply proj1 in Hiff. specialize (Hiff eq_refl).
      apply retryable_message_spec in Hiff. discriminate Hiff. }
    subst retryable. exists s'. exact Heq.
Defined.

(** C5.  A request that passes validation is submitted to the provider:
    by [/api/suggest] with temperature 0.7, at most 32768 output tokens
    and no streaming, by [/api/format] with temperature 0.5 (same token
    limit, no streaming), the user message being the endpoint's prompt
    with the text interpolated.  When the provider resolves with a
    completion whose first choice has a non-empty message content [c],
    [/api/suggest] answers 200 with exactly [{suggestion: c}] and
    [/api/format] answers 200 with exactly [{formattedText: c}]. *)
Theorem accepted_request_is_submitted
    (w : World) (body text : JsVal) (shown : string) (client : Groq) (s : State) :
  groq (on_demand_retry w s) = Some client ->
  accepted (engine w) body text shown ->
  let suggest := suggest_request (suggest_prompt shown) in
  let format := format_request (format_prompt shown) in
  (temperature suggest = 7 # 10 /\ max_tokens suggest = 32768 /\ stream suggest = false
   /\ temperature format = 5 # 10 /\ max_tokens format = 32768 /\ stream format = false)
  /\ (exists tail : list Effect,
        trace (fst (post_api_suggest w body s))
        = (trace (on_demand_retry w s) ++ ProviderRequest client suggest :: tail)%list
        /\ provider_requests tail = [])
  /\ (exists tail : list Effect,
        trace (fst (post_api_format w body s))
        = (trace (on_demand_retry w s) ++ ProviderRequest client format :: tail)%list
        /\ provider_requests tail = [])
  /\ (forall (completion : ChatCompletion) (c : string),
        first_content completion = Some c ->
        String.eqb c "" = false ->
        (chat_completions_create w client suggest = Resolved completion ->
         exists s' : State,
           post_api_suggest w body s =
             (s', Normal {| status := 200; json := JObj [ ("suggestion", JStr c) ] |})
           /\ sent {| status := 200; json := JObj [ ("suggestion", JStr c) ] |}
              = Some (JObj [ ("suggestion", JStr c) ]))
        /\ (chat_completions_create w client format = Resolved completion ->
            exists s' : State,
              post_api_format w body s =
                (s', Normal {| status := 200; json := JObj [ ("formattedText", JStr c) ] |})
              /\ sent {| status := 200; json := JObj [ ("formattedText", JStr c) ] |}
                 = Some (JObj [ ("formattedText", JStr c) ]))).
Proof.
  intros Hc Ha. cbv zeta.
  split; [repeat split|].
  rewrite (post_api_suggest_accepted w body text shown client s Ha Hc),
          (post_api_format_accepted w body text shown client s Ha Hc).
  split; [|split].
  - unfold answer_with.
    destruct (chat_completions_create w client (suggest_request _)) as [completion|error].
    + destruct (truthy (first_choice_content completion)).
      * exists []. split; reflexivity.
      * eexists [_]. cbn [finish fst log_to trace]. rewrite <- app_assoc.
        split; reflexivity.
    + eexists [_]. cbn [finish fst log_to trace]. rewrite <- app_assoc.
      split; reflexivity.
  - unfold answer_with.
    destruct (chat_completions_create w client (format_request _)) as [completion|error].
    + destruct (truthy (first_choice_content completion)).
      * exists []. split; reflexivity.
      * eexists [_]. cbn [finish fst log_to trace]. rewrite <- app_assoc.
        split; reflexivity.
    + eexists [_]. cbn [finish fst log_to trace]. rewrite <- app_assoc.
      split; reflexivity.
  - intros completion c Hfirst Hne.
    assert (Hcontent : first_choice_content completion = JStr c)
      by (rewrite first_choice_content_eq, Hfirst; reflexivity).
    assert (Htruthy : truthy (JStr c) = true) by (simpl; rewrite Hne; reflexivity).
    split; intros Hresolved; rewrite Hresolved; unfold answer_with;
      rewrite Hcontent, Htruthy; eexists; split; reflexivity.
Qed.

Lemma accepted_request_is_submitted_witness :
  exists s' : State,
    post_api_suggest Samples.healthy Samples.helo Samples.ready
    = (s', Normal {| status := 200; json := JObj [ ("suggestion", JStr "Hello world.") ] |})
    /\ provider_requests (trace s') = [ suggest_request (suggest_prompt "helo wrld") ].
Proof.
  destruct (proj1 (proj2 (proj2 (proj2
              (accepted_request_is_submitted Samples.healthy Samples.helo (JStr "helo wrld")
                 "helo wrld" Samples.client Samples.ready eq_refl (helo_accepted _))))
              (Samples.answer (Some "Hello world.")) "Hello world." eq_refl eq_refl) eq_refl)
    as (s' & Heq & _).
  exists s'. split; [exact Heq|].
  assert (Hs : s' = fst (post_api_suggest Samples.healthy Samples.helo Samples.ready))
    by (rewrite Heq; reflexivity).
  rewrite Hs. reflexivity.
Defined.

(** C7.  On [/api/suggest], when the provider call succeeds but the first
    choice's message content is absent (no choice, no message, no content)
    or empty, the handler throws [No suggestion generated] into its own
    catch block; that message contains none of the three trigger
    substrings, so the answer is status 500 with [retryable: false]. *)
Theorem empty_completion_is_a_failure
    (w : World) (body text : JsVal) (shown : string) (client : Groq) (s : State)
    (completion : ChatCompletion) :
  groq (on_demand_retry w s) = Some client ->
  accepted (engine w) body text shown ->
  chat_completions_create w client (suggest_request (suggest_prompt shown))
  = Resolved completion ->
  first_content completion = None \/ first_content completion = Some "" ->
  post_api_suggest w body s =
    (log_to (log_to (on_demand_retry w s)
               (ProviderRequest client (suggest_request (suggest_prompt shown))))
       (ConsoleError "Error generating suggestion:" (Some "No suggestion generated")),
     Normal {| status := 500;
               json := JObj [ ("error", JStr "AI service error");
                              ("message", JStr "No suggestion generated");
                              ("retryable", JBool false) ] |})
  /\ retryable_message "No suggestion generated" = false.
Proof.
  intros Hc Ha Hresolved Hempty. split; [|reflexivity].
  rewrite (post_api_suggest_accepted w body text shown client s Ha Hc), Hresolved.
  unfold answer_with. rewrite first_choice_content_eq.
  destruct Hempty as [-> | ->]; reflexivity.
Qed.

Lemma empty_completion_is_a_failure_witness :
  snd (post_api_suggest (Samples.with_provider (Resolved {| choices := [] |}))
         Samples.helo Samples.ready)
  = Normal {| status := 500;
              json := JObj [ ("error", JStr "AI service error");
                             ("message", JStr "No suggestion generated");
                             ("retryable", JBool false) ] |}
  /\ snd (post_api_suggest (Samples.with_provider (Resolved (Samples.answer (Some ""))))
            Samples.helo Samples.ready)
     = Normal {| status := 500;
                 json := JObj [ ("error", JStr "AI service error");
                                ("message", JStr "No suggestion generated");
                                ("retryable", JBool false) ] |}.
Proof.
  split.
  - rewrite (proj1 (empty_completion_is_a_failure
                      (Samples.with_provider (Resolved {| choices := [] |}))
                      Samples.helo (JStr "helo wrld") "helo wrld" Samples.client Samples.ready
                      {| choices := [] |} eq_refl (helo_accepted _) eq_refl
                      (or_introl eq_refl))).
    reflexivity.
  - rewrite (proj1 (empty_completion_is_a_failure
                      (Samples.with_provider (Resolved (Samples.answer (Some ""))))
                      Samples.helo (JStr "helo wrld") "helo wrld" Samples.client Samples.ready
                      (Samples.answer (Some "")) eq_refl (helo_accepted _) eq_refl
                      (or_intror eq_refl))).
    reflexivity.
Defined.

(** C10.  When the value thrown by the provider call has no [message]
    property, both endpoints answer with status 500; the message of the
    answer is the endpoint's fallback text ([Failed to generate suggestion]
    or [Failed to format text]); and [retryable] is [undefined], the result
    of the optional chains, not [false], so the serialized body has no
    [retryable] field. *)
Theorem error_without_message
    (w : World) (body text : JsVal) (shown : string) (client : Groq) (s : State) :
  groq (on_demand_retry w s) = Some client ->
  accepted (engine w) body text shown ->
  (chat_completions_create w client (suggest_request (suggest_prompt shown))
   = Rejected {| message := None |} ->
   exists (s' : State) (r : Response),
     post_api_suggest w body s = (s', Normal r)
     /\ status r = 500
     /\ json r = JObj [ ("error", JStr "AI service error");
                        ("message", JStr "Failed to generate suggestion");
                        ("retryable", JUndefined) ]
     /\ sent r = Some (JObj [ ("error", JStr "AI service error");
                              ("message", JStr "Failed to generate suggestion") ]))
  /\ (chat_completions_create w client (format_request (format_prompt shown))
      = Rejected {| message := None |} ->
      exists (s' : State) (r : Response),
        post_api_format w body s = (s', Normal r)
        /\ status r = 500
        /\ json r = JObj [ ("error", JStr "AI service error");
                           ("message", JStr "Failed to format text");
                           ("retryable", JUndefined) ]
        /\ sent r = Some (JObj [ ("error", JStr "AI service error");
                                 ("message", JStr "Failed to format text") ])).
Proof.
  intros Hc Ha. split; intros Hrejected.
  - rewrite (post_api_suggest_accepted w body text shown client s Ha Hc), Hrejected.
    do 2 eexists. split; [reflexivity|]. repeat split.
  - rewrite (post_api_format_accepted w body text shown client s Ha Hc), Hrejected.
    do 2 eexists. split; [reflexivity|]. repeat split.
Qed.

Lemma error_without_message_witness :
  exists (s' : State) (r : Response),
    post_api_format (Samples.with_provider (Rejected {| message := None |}))
      Samples.helo Samples.ready = (s', Normal r)
    /\ status r = 500
    /\ sent r = Some (JObj [ ("error", JStr "AI service error");
                             ("message", JStr "Failed to format text") ]).
Proof.
  destruct (proj2 (error_without_message
                     (Samples.with_provider (Rejected {| message := None |}))
                     Samples.helo (JStr "helo wrld") "helo wrld" Samples.client Samples.ready
                     eq_refl (helo_accepted _)) eq_refl)
    as (s' & r & Heq & Hstatus & _ & Hsent).
  exists s', r. repeat split; assumption.
Defined.

(* ------------------------------------------------------------------ *)
(** ** Text that is not a string *)
(* ------------------------------------------------------------------ *)




(* ================================================================== *)
(** * Part IV.  Further properties *)
(* ================================================================== *)

(* ------------------------------------------------------------------ *)
(** ** The retry loop *)
(* ------------------------------------------------------------------ *)

(** X1.  A call of the loop that runs to its end with no other call of
    the loop between its awaits, in a world that stays the same meanwhile,
    ends with the client in place or the counter at 3 or more, so that
    calling the loop again, in any world, does nothing.  Such a call never
    lowers the counter and never takes it past 3 (unless it was past
    already); it leaves an existing client as it is; it calls
    [initializeGroq] at most as many times as attempts were left, asks
    nothing of the provider, and, the counter starting from 0 or more,
    waits 6000 ms at most in all.  (Calls that overlap can take the counter
    past 3: [OverlapInvariants.overlapping_calls_pass_the_cap].) *)
Theorem retry_loop_postcondition (w : World) (s s' : State) :
  Interleaved.alone w (fst (Interleaved.enter w s)) (snd (Interleaved.enter w s)) s' ->
  may_attempt s' = false
  /\ (forall w' : World, initializeGroqWithRetry w' s' = (s', Normal tt))
  /\ initializationAttempts s <= initializationAttempts s'
  /\ initializationAttempts s' <= Z.max (initializationAttempts s) 3
  /\ (forall c : Groq, groq s = Some c -> s' = s)
  /\ exists tail : list Effect,
       trace s' = (trace s ++ tail)%list
       /\ (init_calls tail <= Z.to_nat (3 - initializationAttempts s))%nat
       /\ provider_requests tail = []
       /\ (0 <= initializationAttempts s -> total_delay tail <= 6000).
Proof.
  intros Halone.
  assert (Hs' : s' = fst (initializeGroqWithRetry w s)).
  { exact (OverlapFacts.alone_functional w _ _ _ _ Halone
             (InterleavedFacts.alone_is_sequential w _ s eq_refl)). }
  subst s'. exact (retry_facts w s).
Qed.

Lemma retry_loop_postcondition_witness :
  may_attempt (fst (initializeGroqWithRetry Samples.no_key initial_state)) = false
  /\ initializationAttempts (fst (initializeGroqWithRetry Samples.no_key initial_state))
     <= Z.max 0 3.
Proof.
  assert (Halone : Interleaved.alone Samples.no_key
                     (fst (Interleaved.enter Samples.no_key initial_state))
                     (snd (Interleaved.enter Samples.no_key initial_state))
                     (fst (initializeGroqWithRetry Samples.no_key initial_state))).
  { do 6 (eapply Interleaved.alone_more; [reflexivity|]).
    apply Interleaved.alone_done. }
  destruct (retry_loop_postcondition Samples.no_key initial_state _ Halone)
    as (Hsettled & _ & _ & Hcap & _).
  split; [exact Hsettled | exact Hcap].
Defined.

(** X2.  The start-up call settles the process, however further calls of
    the loop (made by requests that find no client) overlap with it, and
    in whatever worlds each of them goes on: from the moment the start-up
    call has been made, whenever no call of the loop is suspended, the
    client exists or the counter is at 3 or more.  And once that is so it
    stays so, whatever calls come later: the handle is the same,
    [initializeGroq] is not called again. *)
Theorem startup_settles (w0 : World) (c : Interleaved.Config) :
  Interleaved.steps (started w0) c ->
  (snd c = [] ->
   (exists cl : Groq, groq (fst c) = Some cl) \/ 3 <= initializationAttempts (fst c))
  /\ ((exists cl : Groq, groq (fst c) = Some cl) \/ 3 <= initializationAttempts (fst c) ->
      forall c' : Interleaved.Config,
        Interleaved.steps c c' ->
        groq (fst c') = groq (fst c)
        /\ init_calls (trace (fst c')) = init_calls (trace (fst c))
        /\ ((exists cl : Groq, groq (fst c') = Some cl)
            \/ 3 <= initializationAttempts (fst c'))).
Proof.
  intros Hsteps. split.
  - intros Hnone.
    destruct (OverlapInvariants.steps_keep_running _ _ Hsteps
                (OverlapInvariants.started_running w0)) as [[Hs | (p & Hin & _)] _].
    + apply settled_iff, Hs.
    + rewrite Hnone in Hin. destruct Hin.
  - intros Hsettled c' Hlater. apply settled_iff in Hsettled.
    destruct (OverlapInvariants.steps_keep_settled c c' Hlater Hsettled) as (Hg & Hc & Hs).
    split; [exact Hg|]. split; [exact Hc | apply settled_iff, Hs].
Qed.

Lemma startup_settles_witness :
  (exists cl : Groq, groq (fst (started Samples.healthy)) = Some cl)
  \/ 3 <= initializationAttempts (fst (started Samples.healthy)).
Proof.
  exact (proj1 (startup_settles Samples.healthy (fst (started Samples.healthy), [])
                  (Interleaved.steps_more _ _ _
                     (Interleaved.step_resume Samples.healthy
                        (fst (started Samples.healthy)) [] []
                        (Interleaved.AwaitingInit true))
                     (Interleaved.steps_done _)))
             eq_refl).
Defined.

(* ------------------------------------------------------------------ *)
(** ** Requests and the shared variables *)
(* ------------------------------------------------------------------ *)

(** X3.  Once the client exists, or once the counter has reached 3, no
    sequence of requests changes the client handle or the counter, calls
    [initializeGroq] or awaits a timer: an existing client is never
    replaced nor dropped, and a process at the cap never recovers. *)
Theorem settled_lifecycle_is_frozen (s : State) (reqs : list (World * Request)) :
  (exists c : Groq, groq s = Some c) \/ 3 <= initializationAttempts s ->
  let s' := fst (serve_all reqs s) in
  groq s' = groq s
  /\ initializationAttempts s' = initializationAttempts s
  /\ init_calls (trace s') = init_calls (trace s)
  /\ timers (trace s') = timers (trace s).
Proof. intros H. apply serve_all_settled, settled_iff, H. Qed.

Lemma settled_lifecycle_is_frozen_witness :
  groq (fst (serve_all [ (Samples.no_key, POST_api_suggest Samples.helo);
                         (Samples.no_key, GET_health);
                         (Samples.no_key, POST_api_format (JObj [])) ]
               Samples.ready))
  = Some Samples.client
  /\ init_calls (trace (fst (serve_all [ (Samples.no_key, POST_api_suggest Samples.helo);
                                         (Samples.no_key, GET_health);
                                         (Samples.no_key, POST_api_format (JObj [])) ]
                               Samples.ready)))
     = 0%nat.
Proof.
  destruct (settled_lifecycle_is_frozen Samples.ready
              [ (Samples.no_key, POST_api_suggest Samples.helo);
                (Samples.no_key, GET_health);
                (Samples.no_key, POST_api_format (JObj [])) ]
              (or_introl (ex_intro _ Samples.client eq_refl)))
    as (Hg & _ & Hc & _).
  split; [exact Hg | exact Hc].
Defined.

(** X4.  After a POST request has been served, whatever its body and its
    world, the process is settled: either a client exists, or none does,
    the counter is at 3 or more, and the answer was 503, AI service
    unavailable. *)
Theorem post_request_settles (w : World) (body : JsVal) (s : State) :
  ((exists c : Groq, groq (fst (post_api_suggest w body s)) = Some c)
   \/ (groq (fst (post_api_suggest w body s)) = None
       /\ 3 <= initializationAttempts (fst (post_api_suggest w body s))
       /\ snd (post_api_suggest w body s) = Normal unavailable_response))
  /\ ((exists c : Groq, groq (fst (post_api_format w body s)) = Some c)
      \/ (groq (fst (post_api_format w body s)) = None
          /\ 3 <= initializationAttempts (fst (post_api_format w body s))
          /\ snd (post_api_format w body s) = Normal unavailable_response)).
Proof.
  pose proof (on_demand_retry_settles w s) as Hs. apply settled_iff in Hs.
  split.
  - destruct (post_api_suggest_paths w body s)
      as (s' & r & -> & [(Hnone & -> & ->) | ((c & Hc) & Hans)]); cbn [fst snd].
    + right. split; [exact Hnone|]. split; [|reflexivity].
      destruct Hs as [[c Hc]|Hcap]; [congruence | exact Hcap].
    + left. exists c. destruct (answered_keeps _ _ _ _ Hans) as (Hg & _). congruence.
  - destruct (post_api_format_paths w body s)
      as (s' & r & -> & [(Hnone & -> & ->) | ((c & Hc) & Hans)]); cbn [fst snd].
    + right. split; [exact Hnone|]. split; [|reflexivity].
      destruct Hs as [[c Hc]|Hcap]; [congruence | exact Hcap].
    + left. exists c. destruct (answered_keeps _ _ _ _ Hans) as (Hg & _). congruence.
Qed.

(** X5.  A POST request that finds no client, with attempts left, in a
    world where the key is configured and the constructor succeeds, is
    served exactly as the same request by a process whose client already
    existed: one successful [initializeGroq] (its console line, the
    counter untouched), then the handler as usual. *)
Theorem lazy_initialisation (w : World) (body : JsVal) (s : State) (key : string) :
  groq s = None ->
  initializationAttempts s < 3 ->
  configured_key w = Some key ->
  Groq_constructor_throws w {| apiKey := key; timeout := 30000 |} = None ->
  let initialised :=
    {| groq := Some {| options := {| apiKey := key; timeout := 30000 |} |};
       initializationAttempts := initializationAttempts s;
       trace := (trace s ++ [ConsoleLog "Groq AI service initialized successfully"])%list |} in
  post_api_suggest w body s = post_api_suggest w body initialised
  /\ post_api_format w body s = post_api_format w body initialised.
Proof.
  intros Hnone Hlt Hk Hctor. cbv zeta.
  assert (Hg : may_attempt s = true) by (apply may_attempt_true; split; assumption).
  rewrite !post_api_suggest_entry, !post_api_format_entry.
  assert (H1 : on_demand_retry w s =
               {| groq := Some {| options := options_for key |};
                  initializationAttempts := initializationAttempts s;
                  trace := trace s ++ [ConsoleLog "Groq AI service initialized successfully"] |}).
  { rewrite on_demand_retry_eq, (retry_success w s key Hg Hk Hctor). reflexivity. }
  rewrite H1. split; reflexivity.
Qed.

Lemma lazy_initialisation_witness :
  post_api_suggest Samples.healthy Samples.helo initial_state
  = post_api_suggest Samples.healthy Samples.helo
      {| groq := Some Samples.client;
         initializationAttempts := 0;
         trace := [ConsoleLog "Groq AI service initialized successfully"] |}.
Proof.
  exact (proj1 (lazy_initialisation Samples.healthy Samples.helo initial_state "gsk_test"
                  eq_refl eq_refl eq_refl eq_refl)).
Defined.

(* ------------------------------------------------------------------ *)
(** ** What the POST handlers answer *)
(* ------------------------------------------------------------------ *)

(** X6.  Both POST handlers answer every request, whatever the body, the
    state and the world, as long as what is thrown inside them (by the
    engine, by the handler itself or by the provider call) is a value
    whose [message] reads as a string or as nothing, which every [Error]
    is: such a value never leaves the handler.  (A thrown [null] or
    [undefined] has no value in [JsError], and this says nothing of it.)
    The status is 200, 400, 500 or 503.  With 200 the body has exactly one field
    ([suggestion] or [formattedText]) holding a non-empty string; with any
    other status the body, as the client reads it, starts with a non-empty
    [error] string and a non-empty [message] string. *)
Theorem post_handlers_always_answer (w : World) (body : JsVal) (s : State) :
  (exists (s' : State) (r : Response),
     post_api_suggest w body s = (s', Normal r)
     /\ ((status r = 200 /\ success_body "suggestion" r)
         \/ ((status r = 400 \/ status r = 500 \/ status r = 503) /\ error_body r)))
  /\ (exists (s' : State) (r : Response),
        post_api_format w body s = (s', Normal r)
        /\ ((status r = 200 /\ success_body "formattedText" r)
            \/ ((status r = 400 \/ status r = 500 \/ status r = 503) /\ error_body r))).
Proof.
  split.
  - destruct (post_api_suggest_paths w body s)
      as (s' & r & Heq & [(_ & _ & ->) | (_ & tail & _ & _ & _ & Hcases)]);
      exists s'; eexists; (split; [exact Heq|]).
    + right. split; [right; right; reflexivity | exact error_body_unavailable].
    + destruct Hcases as [(Hst & Hb & _) | [(Hst & Hb & _) | (Hst & Hb & _)]].
      * right. split; [left; exact Hst | exact Hb].
      * left. split; assumption.
      * right. split; [right; exact Hst | exact Hb].
  - destruct (post_api_format_paths w body s)
      as (s' & r & Heq & [(_ & _ & ->) | (_ & tail & _ & _ & _ & Hcases)]);
      exists s'; eexists; (split; [exact Heq|]).
    + right. split; [right; right; reflexivity | exact error_body_unavailable].
    + destruct Hcases as [(Hst & Hb & _) | [(Hst & Hb & _) | (Hst & Hb & _)]].
      * right. split; [left; exact Hst | exact Hb].
      * left. split; assumption.
      * right. split; [right; exact Hst | exact Hb].
Qed.

(** X7.  Serving a POST request only adds to the trace, and asks the
    provider at most once.  A request answered 400, and a request that
    finds no client after the retry pass, do not reach the provider at
    all; a request answered 200 reached it exactly once. *)
Theorem provider_is_asked_at_most_once (w : World) (body : JsVal) (s : State) :
  (exists (s' : State) (r : Response) (tail : list Effect),
     post_api_suggest w body s = (s', Normal r)
     /\ trace s' = (trace s ++ tail)%list
     /\ (List.length (provider_requests tail) <= 1)%nat
     /\ (status r = 400 -> provider_requests tail = [])
     /\ (groq (on_demand_retry w s) = None -> provider_requests tail = [])
     /\ (status r = 200 -> List.length (provider_requests tail) = 1%nat))
  /\ (exists (s' : State) (r : Response) (tail : list Effect),
        post_api_format w body s = (s', Normal r)
        /\ trace s' = (trace s ++ tail)%list
        /\ (List.length (provider_requests tail) <= 1)%nat
        /\ (status r = 400 -> provider_requests tail = [])
        /\ (groq (on_demand_retry w s) = None -> provider_requests tail = [])
        /\ (status r = 200 -> List.length (provider_requests tail) = 1%nat)).
Proof.
  destruct (on_demand_retry_trace w s) as (tail0 & Htr0 & Hp0).
  assert (Hpaths : forall key s' r,
             (groq (on_demand_retry w s) = None
              /\ s' = on_demand_retry w s /\ r = unavailable_response)
             \/ ((exists c : Groq, groq (on_demand_retry w s) = Some c)
                 /\ answered key (on_demand_retry w s) s' r) ->
             exists tail : list Effect,
               trace s' = (trace s ++ tail)%list
               /\ (List.length (provider_requests tail) <= 1)%nat
               /\ (status r = 400 -> provider_requests tail = [])
               /\ (groq (on_demand_retry w s) = None -> provider_requests tail = [])
               /\ (status r = 200 -> List.length (provider_requests tail) = 1%nat)).
  { intros key s' r [(Hnone & -> & ->) | ((c & Hc) & tail & -> & _ & _ & Hcases)].
    - exists tail0. rewrite Hp0. split; [exact Htr0|]. split; [simpl; lia|].
      split; [reflexivity|]. split; [reflexivity|]. discriminate.
    - exists (tail0 ++ tail)%list. unfold extend. cbn [trace].
      rewrite Htr0, app_assoc, provider_requests_app, Hp0. cbn [app].
      split; [reflexivity|].
      destruct Hcases as [(Hst & _ & ->) | [(Hst & _ & cl & req & ->) | ([Hst|Hst] & _ & Hle)]];
        (split; [simpl; lia|]); (split; [|split]); try reflexivity;
        try (intros H; congruence); try (rewrite Hst; discriminate). }
  split.
  - destruct (post_api_suggest_paths w body s) as (s' & r & Heq & Hcases).
    destruct (Hpaths "suggestion" s' r Hcases) as (tail & H).
    exists s', r, tail. split; [exact Heq | exact H].
  - destruct (post_api_format_paths w body s) as (s' & r & Heq & Hcases).
    destruct (Hpaths "formattedText" s' r Hcases) as (tail & H).
    exists s', r, tail. split; [exact Heq | exact H].
Qed.

(** X8.  However calls of the loop overlap at their awaits, from the
    initial state on and in whatever worlds: the counter is never
    negative; the failed initialisations logged are those the counter has
    counted plus one for each call suspended right after a failure (so the
    counter never runs ahead of the log, and lags by at most the number of
    suspended calls); at most one initialisation ever succeeds, and a
    client exists exactly when one did; that client was built with a
    non-empty API key and the 30000 ms timeout.  The steps are those of
    the calls of the loop, whoever makes them; what a handler does besides
    (it writes neither variable, and logs under other labels) is not part
    of them.  No upper bound on the counter is claimed: overlapping calls
    can take it past 3. *)
Theorem counter_counts_failures (c : Interleaved.Config) :
  Interleaved.steps (initial_state, []) c ->
  0 <= initializationAttempts (fst c)
  /\ Z.of_nat (init_failures (trace (fst c)))
     = initializationAttempts (fst c) + Z.of_nat (uncounted_failures (snd c))
  /\ initializationAttempts (fst c) <= Z.of_nat (init_failures (trace (fst c)))
     <= initializationAttempts (fst c) + Z.of_nat (List.length (snd c))
  /\ (init_successes (trace (fst c))
      + match groq (fst c) with Some _ => 0 | None => 1 end = 1)%nat
  /\ (forall cl : Groq,
        groq (fst c) = Some cl ->
        timeout (options cl) = 30000 /\ String.eqb (apiKey (options cl)) "" = false).
Proof.
  intros Hsteps.
  destruct (OverlapInvariants.steps_keep_accounted _ _ Hsteps
              OverlapInvariants.accounted_start) as (Hpos & Hfail & Hsucc & Hclient).
  pose proof (OverlapInvariants.uncounted_le (snd c)) as Hle.
  split; [exact Hpos|]. split; [exact Hfail|]. split; [lia|].
  split; [exact Hsucc | exact Hclient].
Qed.

Lemma counter_counts_failures_witness :
  Z.of_nat (init_failures (trace (fst (started Samples.no_key))))
  = initializationAttempts (fst (started Samples.no_key))
    + Z.of_nat (uncounted_failures (snd (started Samples.no_key))).
Proof.
  exact (proj1 (proj2 (counter_counts_failures (started Samples.no_key)
                         (Interleaved.steps_more _ _ _
                            (Interleaved.step_call Samples.no_key initial_state [])
                            (Interleaved.steps_done _))))).
Defined.

(* ------------------------------------------------------------------ *)
(** ** Validation and classification, at the edges *)
(* ------------------------------------------------------------------ *)

(** X9.  When a client is available, a request whose [text] is falsy is
    answered 400, Missing text, on both endpoints, with no effect at all;
    [text] is falsy exactly when it is absent, [null], [false], [0] or the
    empty string.  A body that is a JSON array has no [text] and is
    answered the same way. *)
Theorem falsy_text_is_missing (w : World) (body text : JsVal) (s : State) (client : Groq) :
  groq (on_demand_retry w s) = Some client ->
  destructure_text (engine w) body = Normal text ->
  truthy text = false ->
  (text = JUndefined \/ text = JNull \/ text = JBool false \/ text = JNum 0 \/ text = JStr "")
  /\ post_api_suggest w body s =
       (on_demand_retry w s,
        Normal {| status := 400;
                  json := JObj [ ("error", JStr "Missing text");
                                 ("message", JStr "Please provide text to get suggestions") ] |})
  /\ post_api_format w body s =
       (on_demand_retry w s,
        Normal {| status := 400;
                  json := JObj [ ("error", JStr "Missing text");
                                 ("message", JStr "Please provide text to format") ] |})
  /\ (match body with
      | JArr _ => text = JUndefined
      | _ => True
      end).
Proof.
  intros Hc Ht Hf. split; [apply truthy_false_iff, Hf|].
  rewrite post_api_suggest_entry, post_api_format_entry, Hc. unfold try_catch.
  rewrite (suggest_try_missing w body text _ Ht Hf), (format_try_missing w body text _ Ht Hf).
  split; [reflexivity|]. split; [reflexivity|].
  destruct body; try exact I; simpl in Ht; congruence.
Qed.

Lemma falsy_text_is_missing_witness :
  post_api_suggest Samples.healthy (Samples.body_of (JNum 0)) Samples.ready =
    (Samples.ready,
     Normal {| status := 400;
               json := JObj [ ("error", JStr "Missing text");
                              ("message", JStr "Please provide text to get suggestions") ] |})
  /\ post_api_format Samples.healthy (JArr [JStr "helo wrld"]) Samples.ready =
       (Samples.ready,
        Normal {| status := 400;
                  json := JObj [ ("error", JStr "Missing text");
                                 ("message", JStr "Please provide text to format") ] |}).
Proof.
  split.
  - exact (proj1 (proj2 (falsy_text_is_missing Samples.healthy (Samples.body_of (JNum 0))
                           (JNum 0) Samples.ready Samples.client eq_refl eq_refl eq_refl))).
  - exact (proj1 (proj2 (proj2 (falsy_text_is_missing Samples.healthy
                                  (JArr [JStr "helo wrld"]) JUndefined Samples.ready
                                  Samples.client eq_refl eq_refl eq_refl)))).
Defined.

(** X10.  When a client is available and [text] is a string, the request
    is answered 400 if and only if the string is empty or longer than
    32000 code units: a string of 1 to 32000 code units is never refused
    by validation. *)
Theorem string_text_rejected_iff (w : World) (body : JsVal) (t : string) (s : State)
    (client : Groq) :
  groq (on_demand_retry w s) = Some client ->
  destructure_text (engine w) body = Normal (JStr t) ->
  (exists (s' : State) (r : Response),
     post_api_suggest w body s = (s', Normal r)
     /\ (status r = 400 <-> t = "" \/ 32000 < Z.of_nat (String.length t)))
  /\ (exists (s' : State) (r : Response),
        post_api_format w body s = (s', Normal r)
        /\ (status r = 400 <-> t = "" \/ 32000 < Z.of_nat (String.length t))).
Proof.
  intros Hc Ht.
  destruct (String.eqb_spec t "") as [Hempty | Hne].
  - subst t.
    rewrite post_api_suggest_entry, post_api_format_entry, Hc. unfold try_catch.
    rewrite (suggest_try_missing w body (JStr "") _ Ht eq_refl),
            (format_try_missing w body (JStr "") _ Ht eq_refl).
    split; do 2 eexists; (split; [reflexivity|]); split; auto.
  - assert (Htruthy : truthy (JStr t) = true)
      by (simpl; apply negb_true_iff, String.eqb_neq, Hne).
    destruct (Z.ltb_spec 32000 (Z.of_nat (String.length t))) as [Hlong | Hshort].
    + assert (Hg : GreaterThan (engine w) (JNum (Z.of_nat (String.length t))) 32000
                   = Normal true)
        by (simpl; f_equal; rewrite Z.gtb_ltb; apply Z.ltb_lt; exact Hlong).
      rewrite post_api_suggest_entry, post_api_format_entry, Hc. unfold try_catch.
      rewrite (suggest_try_too_long w body (JStr t) _ _ Ht Htruthy eq_refl Hg),
              (format_try_too_long w body (JStr t) _ _ Ht Htruthy eq_refl Hg).
      split; do 2 eexists; (split; [reflexivity|]); split; auto.
    + assert (Hpos : 0 < Z.of_nat (String.length t))
        by (destruct t; [congruence | simpl; lia]).
      assert (Ha : accepted (engine w) body (JStr t) t)
        by (apply string_accepted; [exact Ht | lia]).
      destruct (accepted_reaches_provider w body (JStr t) t client s Hc Ha)
        as [(s1 & r1 & Heq1 & Hst1 & _) (s2 & r2 & Heq2 & Hst2 & _)].
      split; [exists s1, r1 | exists s2, r2]; (split; [assumption|]); split.
      * intros H400. destruct Hst1 as [H|[H|H]]; rewrite H in H400; discriminate.
      * intros [H|H]; [contradiction | lia].
      * intros H400. destruct Hst2 as [H|[H|H]]; rewrite H in H400; discriminate.
      * intros [H|H]; [contradiction | lia].
Qed.

Lemma string_text_rejected_iff_witness :
  exists (s' : State) (r : Response),
    post_api_suggest Samples.healthy Samples.helo Samples.ready = (s', Normal r)
    /\ (status r = 400 <-> "helo wrld" = "" \/ 32000 < 9).
Proof.
  exact (proj1 (string_text_rejected_iff Samples.healthy Samples.helo "helo wrld"
                  Samples.ready Samples.client eq_refl eq_refl)).
Defined.

(** X11.  The classification of a caught error looks for the three
    trigger words anywhere in the message: if a message is retryable, so
    is every message that contains it, and both catch blocks then answer
    503 with [retryable: true]. *)
Theorem retryable_survives_wrapping (before m after : string) (s : State) :
  retryable_message m = true ->
  retryable_message (before ++ m ++ after) = true
  /\ (exists (s' : State) (shown : string),
        suggest_catch (Error (before ++ m ++ after)) s =
          (s', Normal {| status := 503;
                         json := JObj [ ("error", JStr "AI service error");
                                        ("message", JStr shown);
                                        ("retryable", JBool true) ] |}))
  /\ (exists (s' : State) (shown : string),
        format_catch (Error (before ++ m ++ after)) s =
          (s', Normal {| status := 503;
                         json := JObj [ ("error", JStr "AI service error");
                                        ("message", JStr shown);
                                        ("retryable", JBool true) ] |})).
Proof.
  intros Hm.
  assert (Hwrapped : retryable_message (before ++ m ++ after) = true).
  { apply retryable_message_spec. apply retryable_message_spec in Hm.
    destruct Hm as [H | [H | H]]; [left | right; left | right; right];
      apply Substring_wrapped; exact H. }
  split; [exact Hwrapped|].
  assert (Hclass : forall fallback,
             classified fallback (Error (before ++ m ++ after)) =
             {| status := 503;
                json := JObj [ ("error", JStr "AI service error");
                               ("message",
                                JStr (if String.eqb (before ++ m ++ after) ""
                                      then fallback else before ++ m ++ after));
                               ("retryable", JBool true) ] |})
    by (intros fallback; rewrite classified_message, Hwrapped; reflexivity).
  split; [rewrite suggest_catch_eq, Hclass | rewrite format_catch_eq, Hclass];
    do 2 eexists; reflexivity.
Qed.

Lemma retryable_survives_wrapping_witness :
  retryable_message ("APIConnectionError: " ++ "connection" ++ " refused by upstream") = true.
Proof.
  exact (proj1 (retryable_survives_wrapping "APIConnectionError: " "connection"
                  " refused by upstream" initial_state eq_refl)).
Defined.

(* ------------------------------------------------------------------ *)
(** ** Overlapping calls of the loop *)
(* ------------------------------------------------------------------ *)

(** X12.  However calls of [initializeGroqWithRetry] overlap at their
    awaits, and in whatever worlds they go on: an existing client is
    never replaced, the counter never decreases, and the number of
    successful initialisations logged, plus one while no client exists,
    stays what it was.  In a process that starts without a client and
    without a success on its trace, at most one client is thus ever
    constructed. *)
Theorem client_is_never_replaced (c c' : Interleaved.Config) :
  Interleaved.steps c c' ->
  (forall cl : Groq, groq (fst c) = Some cl -> groq (fst c') = Some cl)
  /\ initializationAttempts (fst c) <= initializationAttempts (fst c')
  /\ (init_successes (trace (fst c'))
      + match groq (fst c') with Some _ => 0 | None => 1 end
      = init_successes (trace (fst c))
        + match groq (fst c) with Some _ => 0 | None => 1 end)%nat.
Proof. exact (OverlapFacts.steps_keep c c'). Qed.

Lemma client_is_never_replaced_witness :
  (init_successes (trace (fst (Interleaved.enter Samples.healthy initial_state)))
   + match groq (fst (Interleaved.enter Samples.healthy initial_state)) with
     | Some _ => 0
     | None => 1
     end = 1)%nat.
Proof.
  exact (proj2 (proj2 (client_is_never_replaced
                         (initial_state, [])
                         (fst (Interleaved.enter Samples.healthy initial_state),
                          Interleaved.suspend
                            (snd (Interleaved.enter Samples.healthy initial_state)) [])
                         (Interleaved.steps_more _ _ _
                            (Interleaved.step_call Samples.healthy initial_state [])
                            (Interleaved.steps_done _))))).
Defined.

(** X13.  A call of the loop that goes from await to await with nothing
    in between ends in the state the sequential [initializeGroqWithRetry]
    returns, and in no other. *)
Theorem uninterrupted_loop_is_sequential (w : World) (s s' : State) :
  Interleaved.alone w (fst (Interleaved.enter w s)) (snd (Interleaved.enter w s)) s'
  <-> s' = fst (initializeGroqWithRetry w s).
Proof.
  pose proof (InterleavedFacts.alone_is_sequential w _ s eq_refl) as Hseq.
  split.
  - intros H. exact (OverlapFacts.alone_functional w _ _ _ _ H Hseq).
  - intros ->. exact Hseq.
Qed.
